(** * ScreenShake2D: a camera grip that shakes the camera position

    Shallow embedding of [arcade/camera/grips/screen_shake_2d.py].

    Python floats are modelled by the real numbers [R]: every statement
    below is about exact real arithmetic.  A float division by zero raises
    [ZeroDivisionError]; this is kept, as the only exception the
    arithmetic of the module can raise over the reals.  The range errors
    of float arithmetic ([OverflowError] of [math.exp] and of [**],
    [ValueError] of [math.sin] at an infinity) have no counterpart over
    the reals and are not modelled: an outcome [Ok] says that no division
    by zero was met.  A method is a computation in a state-and-exception
    monad whose state survives a raise, as the attributes of a Python
    object do. *)

From Stdlib Require Import Reals Lra List Bool.
Import ListNotations.

Open Scope R_scope.

(** Numerals stay numerals under [cbn], so that [lra] reads them. *)
#[local] Arguments IZR _ : simpl never.
#[local] Arguments Z.pow_pos _ _ : simpl never.

(** ** Data *)

(** [tuple[float, float, float]] *)
Definition vec3 : Type := (R * R * R)%type.

Definition vx (v : vec3) : R := fst (fst v).
Definition vy (v : vec3) : R := snd (fst v).
Definition vz (v : vec3) : R := snd v.

(** The [CameraData] object is owned by the camera; the controller only
    keeps a reference to it and touches nothing but [position]. *)
Record CameraData : Type := mkCameraData { position : vec3 }.

(** The attributes of a [ScreenShake2D] instance, in the order in which
    [__init__] assigns them.  The camera the controller refers to is part
    of the record: it stands for the one heap object both share. *)
Record ScreenShake2D : Type := mkScreenShake2D {
  _data : CameraData;
  max_amplitude : R;
  falloff_duration : R;
  shake_frequency : R;
  _acceleration_duration : R;
  _shaking : bool;
  _length_shaking : R;
  _current_dir : R;
  _last_vector : vec3;
  _last_update_time : R;
  direction_deg : option R
}.

(** Attribute assignments. *)
Definition set_data (v : CameraData) (s : ScreenShake2D) : ScreenShake2D :=
  mkScreenShake2D v (max_amplitude s) (falloff_duration s) (shake_frequency s)
    (_acceleration_duration s) (_shaking s) (_length_shaking s)
    (_current_dir s) (_last_vector s) (_last_update_time s) (direction_deg s).

Definition set_max_amplitude (v : R) (s : ScreenShake2D) : ScreenShake2D :=
  mkScreenShake2D (_data s) v (falloff_duration s) (shake_frequency s)
    (_acceleration_duration s) (_shaking s) (_length_shaking s)
    (_current_dir s) (_last_vector s) (_last_update_time s) (direction_deg s).

Definition set_falloff_duration (v : R) (s : ScreenShake2D) : ScreenShake2D :=
  mkScreenShake2D (_data s) (max_amplitude s) v (shake_frequency s)
    (_acceleration_duration s) (_shaking s) (_length_shaking s)
    (_current_dir s) (_last_vector s) (_last_update_time s) (direction_deg s).

Definition set_shake_frequency (v : R) (s : ScreenShake2D) : ScreenShake2D :=
  mkScreenShake2D (_data s) (max_amplitude s) (falloff_duration s) v
    (_acceleration_duration s) (_shaking s) (_length_shaking s)
    (_current_dir s) (_last_vector s) (_last_update_time s) (direction_deg s).

Definition set_acceleration_duration (v : R) (s : ScreenShake2D)
  : ScreenShake2D :=
  mkScreenShake2D (_data s) (max_amplitude s) (falloff_duration s)
    (shake_frequency s) v (_shaking s) (_length_shaking s)
    (_current_dir s) (_last_vector s) (_last_update_time s) (direction_deg s).

Definition set_shaking (v : bool) (s : ScreenShake2D) : ScreenShake2D :=
  mkScreenShake2D (_data s) (max_amplitude s) (falloff_duration s)
    (shake_frequency s) (_acceleration_duration s) v (_length_shaking s)
    (_current_dir s) (_last_vector s) (_last_update_time s) (direction_deg s).

Definition set_length_shaking (v : R) (s : ScreenShake2D) : ScreenShake2D :=
  mkScreenShake2D (_data s) (max_amplitude s) (falloff_duration s)
    (shake_frequency s) (_acceleration_duration s) (_shaking s) v
    (_current_dir s) (_last_vector s) (_last_update_time s) (direction_deg s).

Definition set_current_dir (v : R) (s : ScreenShake2D) : ScreenShake2D :=
  mkScreenShake2D (_data s) (max_amplitude s) (falloff_duration s)
    (shake_frequency s) (_acceleration_duration s) (_shaking s)
    (_length_shaking s) v (_last_vector s) (_last_update_time s)
    (direction_deg s).

Definition set_last_vector (v : vec3) (s : ScreenShake2D) : ScreenShake2D :=
  mkScreenShake2D (_data s) (max_amplitude s) (falloff_duration s)
    (shake_frequency s) (_acceleration_duration s) (_shaking s)
    (_length_shaking s) (_current_dir s) v (_last_update_time s)
    (direction_deg s).

Definition set_last_update_time (v : R) (s : ScreenShake2D) : ScreenShake2D :=
  mkScreenShake2D (_data s) (max_amplitude s) (falloff_duration s)
    (shake_frequency s) (_acceleration_duration s) (_shaking s)
    (_length_shaking s) (_current_dir s) (_last_vector s) v (direction_deg s).

Definition set_direction_deg (v : option R) (s : ScreenShake2D)
  : ScreenShake2D :=
  mkScreenShake2D (_data s) (max_amplitude s) (falloff_duration s)
    (shake_frequency s) (_acceleration_duration s) (_shaking s)
    (_length_shaking s) (_current_dir s) (_last_vector s)
    (_last_update_time s) v.

(** [self._data.position = v]: a write through the shared reference. *)
Definition set_position (v : vec3) (s : ScreenShake2D) : ScreenShake2D :=
  set_data (mkCameraData v) s.

(** ** Exceptions and the method monad *)

Inductive exn : Type := ZeroDivisionError.

Inductive result (A : Type) : Type :=
| Ok (a : A)
| Raise (e : exn).
Arguments Ok {A} a.
Arguments Raise {A} e.

Definition M (A : Type) : Type := ScreenShake2D -> result A * ScreenShake2D.

Definition ret {A : Type} (a : A) : M A := fun s => (Ok a, s).

Definition bind {A B : Type} (m : M A) (f : A -> M B) : M B :=
  fun s =>
    match m s with
    | (Ok a, s') => f a s'
    | (Raise e, s') => (Raise e, s')
    end.

Definition gets {A : Type} (f : ScreenShake2D -> A) : M A :=
  fun s => (Ok (f s), s).

Definition modify (f : ScreenShake2D -> ScreenShake2D) : M unit :=
  fun s => (Ok tt, f s).

(** Lifting of a pure fallible value. *)
Definition lift {A : Type} (r : result A) : M A := fun s => (r, s).

Notation "x <- m ;; k" := (bind m (fun x => k))
  (at level 61, m at next level, right associativity).
Notation "m ;;; k" := (bind m (fun _ => k))
  (at level 61, right associativity).

(** The state a call leaves behind, whether it returned or raised. *)
Definition exec {A : Type} (m : M A) (s : ScreenShake2D) : ScreenShake2D :=
  snd (m s).

(** The outcome of a call. *)
Definition outcome {A : Type} (m : M A) (s : ScreenShake2D) : result A :=
  fst (m s).

(** Float true division [x / y]. *)
Definition fdiv (x y : R) : result R :=
  if Req_dec_T y 0 then Raise ZeroDivisionError else Ok (x / y).

(** Comparisons as Python evaluates them, to a [bool]. *)
Definition Rleb (x y : R) : bool := if Rle_dec x y then true else false.
Definition Rltb (x y : R) : bool := if Rlt_dec x y then true else false.
Definition Rgeb (x y : R) : bool := if Rge_dec x y then true else false.

(** [random.uniform(a, b)] is [a + (b - a) * random()]; [u] is the sample
    [random()] hands out, taken from [0, 1). *)
Definition uniform (a b u : R) : R := a + (b - a) * u.

(** ** The class *)

(** [__init__], with the keyword defaults of the signature. *)
Definition init (camera_data : CameraData)
    (max_amp falloff_time acceleration_dur frequency : R)
    (direction : option R) : ScreenShake2D :=
  {| _data := camera_data;
     max_amplitude := max_amp;
     falloff_duration := falloff_time;
     shake_frequency := frequency;
     _acceleration_duration := acceleration_dur;
     _shaking := false;
     _length_shaking := 0;
     _current_dir := 0;
     _last_vector := (0, 0, 0);
     _last_update_time := 0;
     direction_deg := direction |}.

Definition init_default (camera_data : CameraData) : ScreenShake2D :=
  init camera_data 1 1 1 15 None.

(** Property [shaking]. *)
Definition shaking (s : ScreenShake2D) : bool := _shaking s.

(** Property [duration], getter. *)
Definition duration (s : ScreenShake2D) : R :=
  if Rltb (falloff_duration s) 0 then _acceleration_duration s
  else _acceleration_duration s + falloff_duration s.

(** Property [duration], setter. *)
Definition set_duration (_duration : R) : M unit :=
  if Rleb _duration 0 then
    modify (set_falloff_duration (-1))
  else
    fd <- gets falloff_duration ;;
    if Rltb fd 0 then
      modify (set_acceleration_duration _duration)
    else
      d <- gets duration ;;
      ratio <- lift (fdiv _duration d) ;;
      ad <- gets _acceleration_duration ;;
      modify (set_acceleration_duration (ratio * ad)) ;;;
      fd' <- gets falloff_duration ;;
      modify (set_falloff_duration (ratio * fd')).

(** Property [acceleration_duration], getter and setter. *)
Definition acceleration_duration (s : ScreenShake2D) : R :=
  _acceleration_duration s.

Definition set_acceleration_duration_prop (_duration : R) : M unit :=
  if Rltb _duration 0 then modify (set_acceleration_duration 0)
  else modify (set_acceleration_duration _duration).

(** Property [acceleration], getter and setter. *)
Definition acceleration : M R :=
  ad <- gets _acceleration_duration ;;
  if Rleb ad 0 then ret 0 else lift (fdiv 1 ad).

Definition set_acceleration (_acceleration : R) : M unit :=
  if Rleb _acceleration 0 then modify (set_acceleration_duration 0)
  else
    v <- lift (fdiv 1 _acceleration) ;;
    modify (set_acceleration_duration v).

(** Property [falloff], getter and setter. *)
Definition falloff : M R :=
  fd <- gets falloff_duration ;;
  if Rltb fd 0 then ret (-1)
  else
    v <- lift (fdiv 1 fd) ;;
    ret ((15 / 8) * v).

Definition set_falloff (_falloff : R) : M unit :=
  if Rleb _falloff 0 then modify (set_falloff_duration (-1))
  else
    v <- lift (fdiv 1 _falloff) ;;
    modify (set_falloff_duration ((15 / 8) * v)).

(** [_acceleration_amp]: the growing half of the envelope. *)
Definition _acceleration_amp (_t : R) : R :=
  1.0001 - 1.0001 * exp (ln (0.0001 / 1.0001) * _t).

(** [_falloff_amp]: the flipped smootherstep. *)
Definition _falloff_amp (_t : R) : R :=
  1 - _t ^ 3 * (_t * (_t * 6 - 15) + 10).

(** [_calc_max_amp]: the envelope at the current [_length_shaking]. *)
Definition _calc_max_amp : M R :=
  ls <- gets _length_shaking ;;
  ad <- gets _acceleration_duration ;;
  if Rleb ls ad then
    _t <- lift (fdiv ls ad) ;;
    ret (_acceleration_amp _t)
  else
    fd <- gets falloff_duration ;;
    if Rltb fd 0 then
      gets max_amplitude
    else
      d <- gets duration ;;
      if Rleb ls d then
        _t <- lift (fdiv (ls - ad) fd) ;;
        ret (_falloff_amp _t)
      else
        ret 0.

(** [_calc_amplitude] *)
Definition _calc_amplitude : M R :=
  _max_amp <- _calc_max_amp ;;
  f <- gets shake_frequency ;;
  ls <- gets _length_shaking ;;
  let _sin_amp := sin (f * 2 * PI * ls) in
  ret (_sin_amp * _max_amp).

(** Property [current_amplitude]. *)
Definition current_amplitude : M R :=
  a <- _calc_amplitude ;;
  ma <- gets max_amplitude ;;
  ret (a * ma).

(** [reset] *)
Definition reset : M unit :=
  modify (set_current_dir 0) ;;;
  modify (set_last_vector (0, 0, 0)) ;;;
  modify (set_last_update_time 0) ;;;
  modify (set_length_shaking 0).

(** [start] *)
Definition start : M unit :=
  reset ;;;
  modify (set_shaking true).

(** The position assignment shared by both definitions of [stop]. *)
Definition undo_last_vector : M unit :=
  p <- gets (fun s => position (_data s)) ;;
  l <- gets _last_vector ;;
  modify (set_position (vx p - vx l, vy p - vy l, vz p - vz l)).

(** The first [def stop] of the class body.  The second [def stop]
    rebinds the name, so no call ever reaches this one. *)
Definition stop_shadowed : M unit :=
  undo_last_vector ;;;
  reset.

(** [stop]: the second definition, the one the class ends up with. *)
Definition stop : M unit :=
  undo_last_vector ;;;
  reset ;;;
  modify (set_shaking false).

(** The body of [update] up to and including the write of
    [_last_vector]; [u] is the sample [random()] would hand out. *)
Definition update_offset (u delta_time : R) : M unit :=
  ls <- gets _length_shaking ;;
  modify (set_length_shaking (ls + delta_time)) ;;;
  amplitude <- _calc_amplitude ;;
  dd <- gets direction_deg ;;
  let angle_radians :=
    match dd with
    | None => uniform 0 (2 * PI) u
    | Some d => d * (PI / 180)
    end in
  let offset_x := amplitude * sin angle_radians in
  let offset_y := amplitude * sin (angle_radians + PI / 2) in
  p <- gets (fun s => position (_data s)) ;;
  l <- gets _last_vector ;;
  modify (set_position (vx p - vx l + offset_x,
                        vy p - vy l + offset_y,
                        vz p - vz l)) ;;;
  modify (set_last_vector (offset_x, offset_y, 0)).

(** [update] *)
Definition update (u delta_time : R) : M unit :=
  sh <- gets _shaking ;;
  if negb sh then ret tt
  else
    update_offset u delta_time ;;;
    ls <- gets _length_shaking ;;
    d <- gets duration ;;
    if Rgeb ls d then stop else ret tt.

(** ** Calls and reachable states *)

(** What a driver can do with a controller: call a method, assign a
    property or a public attribute, read a property. *)
Inductive call : Type :=
| CallStart
| CallStop
| CallReset
| CallUpdate (u delta_time : R)
| AssignDuration (v : R)
| AssignAccelerationDuration (v : R)
| AssignAcceleration (v : R)
| AssignFalloff (v : R)
| AssignMaxAmplitude (v : R)
| AssignFalloffDuration (v : R)
| AssignShakeFrequency (v : R)
| AssignDirectionDeg (v : option R)
| ReadShaking
| ReadDuration
| ReadCurrentAmplitude
| ReadAccelerationDuration
| ReadAcceleration
| ReadFalloff.

Definition discard {A : Type} (m : M A) : M unit := m ;;; ret tt.

Definition perform (c : call) : M unit :=
  match c with
  | CallStart => start
  | CallStop => stop
  | CallReset => reset
  | CallUpdate u dt => update u dt
  | AssignDuration v => set_duration v
  | AssignAccelerationDuration v => set_acceleration_duration_prop v
  | AssignAcceleration v => set_acceleration v
  | AssignFalloff v => set_falloff v
  | AssignMaxAmplitude v => modify (set_max_amplitude v)
  | AssignFalloffDuration v => modify (set_falloff_duration v)
  | AssignShakeFrequency v => modify (set_shake_frequency v)
  | AssignDirectionDeg v => modify (set_direction_deg v)
  | ReadShaking => discard (gets shaking)
  | ReadDuration => discard (gets duration)
  | ReadCurrentAmplitude => discard current_amplitude
  | ReadAccelerationDuration => discard (gets acceleration_duration)
  | ReadAcceleration => discard acceleration
  | ReadFalloff => discard falloff
  end.

(** The states a controller goes through: built by [__init__], then
    driven by calls (a call that raises leaves the attributes it had
    already written), while the owner of the camera may move it. *)
Inductive reachable : ScreenShake2D -> Prop :=
| reach_init : forall cam ma ft ad f dd, reachable (init cam ma ft ad f dd)
| reach_call : forall s c, reachable s -> reachable (exec (perform c) s)
| reach_camera : forall s p, reachable s -> reachable (set_position p s).

(** A frame of the driving loop: the sample of the random source and the
    time since the last frame. *)
Definition frame : Type := (R * R)%type.

(** The driving loop: one [update] per frame.  A loop that lets an
    exception of [update] pass would end there; this one goes on, which
    covers every prefix too. *)
Fixpoint drive (frames : list frame) (s : ScreenShake2D) : ScreenShake2D :=
  match frames with
  | [] => s
  | (u, dt) :: rest => drive rest (exec (update u dt) s)
  end.

(** The camera position. *)
Definition camera (s : ScreenShake2D) : vec3 := position (_data s).

(** ** Auxiliary definitions and scenarios *)

(** [self._length_shaking += delta_time] *)
Definition advance (delta_time : R) (s : ScreenShake2D) : ScreenShake2D :=
  set_length_shaking (_length_shaking s + delta_time) s.

(** The direction [update] shakes in. *)
Definition angle_of (dd : option R) (u : R) : R :=
  match dd with
  | None => uniform 0 (2 * PI) u
  | Some d => d * (PI / 180)
  end.

(** The offset [update] writes for an amplitude [a]. *)
Definition offset_of (dd : option R) (u a : R) : vec3 :=
  (a * sin (angle_of dd u), a * sin (angle_of dd u + PI / 2), 0).

(** The state after the two assignments of [update]. *)
Definition shaken (u delta_time a : R) (s : ScreenShake2D) : ScreenShake2D :=
  let o := offset_of (direction_deg s) u a in
  set_last_vector o
    (set_position (vx (camera s) - vx (_last_vector s) + vx o,
                   vy (camera s) - vy (_last_vector s) + vy o,
                   vz (camera s) - vz (_last_vector s))
       (advance delta_time s)).

(** The state after [stop]. *)
Definition stopped (s : ScreenShake2D) : ScreenShake2D :=
  set_shaking false
    (set_length_shaking 0
       (set_last_update_time 0
          (set_last_vector (0, 0, 0)
             (set_current_dir 0
                (set_position (vx (camera s) - vx (_last_vector s),
                               vy (camera s) - vy (_last_vector s),
                               vz (camera s) - vz (_last_vector s)) s))))).

(** Component-wise sum. *)
Definition vadd (a b : vec3) : vec3 := (vx a + vx b, vy a + vy b, vz a + vz b).

(** [tracks base s]: the camera sits at [base] plus the offset the
    controller applied last. *)
Definition tracks (base : vec3) (s : ScreenShake2D) : Prop :=
  camera s = vadd base (_last_vector s).

(** [ScreenShake2D(cam, max_amplitude=2.0, acceleration_duration=0.5,
    shake_frequency=0.25)], then [start()], [update(1.0)] and
    [falloff_duration = -1.0]. *)
Definition hold_state : ScreenShake2D :=
  exec (perform (AssignFalloffDuration (-1)))
    (exec (perform (CallUpdate 0 1))
       (exec (perform CallStart)
          (init (mkCameraData (0, 0, 0)) 2 1 0.5 0.25 None))).

(** [ScreenShake2D(cam, acceleration_duration=0.0)], then [start()]. *)
Definition instant_start : ScreenShake2D :=
  exec (perform CallStart) (init (mkCameraData (0, 0, 0)) 1 1 0 15 None).

(** [ScreenShake2D(cam, falloff_time=0.0, acceleration_duration=0.0)]. *)
Definition zero_length : ScreenShake2D :=
  init (mkCameraData (0, 0, 0)) 1 0 0 15 None.

(** The four method calls [start], [stop], [reset] and [update], as
    opposed to assignments and reads. *)
Definition is_lifecycle (c : call) : bool :=
  match c with
  | CallStart | CallStop | CallReset | CallUpdate _ _ => true
  | _ => false
  end.

(** [idle_offset s]: the last offset has no z-component, and it is the
    zero vector whenever the controller is not shaking. *)
Definition idle_offset (s : ScreenShake2D) : Prop :=
  vz (_last_vector s) = 0 /\
  (_shaking s = false -> _last_vector s = (0, 0, 0)).

(** The envelope at elapsed shake time [t]. *)
Definition envelope (t : R) (s : ScreenShake2D) : result R :=
  outcome _calc_max_amp (set_length_shaking t s).

(** [ScreenShake2D(cam, shake_frequency=0.25, direction_deg=90)] on a
    camera at the origin, then [start()] and [update(1.0)]: the shake is
    at its peak and has moved the camera by one unit along x. *)
Definition mid_shake : ScreenShake2D :=
  exec (perform (CallUpdate 0 1))
    (exec (perform CallStart)
       (init (mkCameraData (0, 0, 0)) 1 1 1 0.25 (Some 90))).

(** [ScreenShake2D(cam, falloff_time=0.3, acceleration_duration=0.2)],
    then [start()] and one [update(0.25)]: half of the duration 0.5. *)
Definition half_way : ScreenShake2D :=
  exec (update 0 0.25)
    (exec start (init (mkCameraData (0, 0, 0)) 1 0.3 0.2 15 None)).

(** The driving loop as a plain [for] loop: the first [update] that
    raises ends it. *)
Fixpoint run_frames (frames : list frame) : M unit :=
  match frames with
  | [] => ret tt
  | (u, dt) :: rest => update u dt ;;; run_frames rest
  end.

(** The time a list of frames spans. *)
Fixpoint total_time (frames : list frame) : R :=
  match frames with
  | [] => 0
  | (_, dt) :: rest => dt + total_time rest
  end.

(** The squared length of the x-y part of a vector. *)
Definition norm2_xy (v : vec3) : R := vx v * vx v + vy v * vy v.

(** The configuration of a controller: what [__init__] takes, apart
    from the camera. *)
Definition configuration (s : ScreenShake2D)
  : R * R * R * R * option R :=
  (max_amplitude s, falloff_duration s, shake_frequency s,
   _acceleration_duration s, direction_deg s).

(** ** Basic facts about the envelope and the amplitude *)

Lemma Rleb_true x y : Rleb x y = true <-> x <= y.
Proof. unfold Rleb; destruct (Rle_dec x y); split; intros; try easy; lra. Qed.

Lemma Rleb_false x y : Rleb x y = false <-> y < x.
Proof. unfold Rleb; destruct (Rle_dec x y); split; intros; try easy; lra. Qed.

Lemma Rltb_true x y : Rltb x y = true <-> x < y.
Proof. unfold Rltb; destruct (Rlt_dec x y); split; intros; try easy; lra. Qed.

Lemma Rltb_false x y : Rltb x y = false <-> y <= x.
Proof. unfold Rltb; destruct (Rlt_dec x y); split; intros; try easy; lra. Qed.

Lemma Rgeb_true x y : Rgeb x y = true <-> y <= x.
Proof. unfold Rgeb; destruct (Rge_dec x y); split; intros; try easy; lra. Qed.

Lemma Rgeb_false x y : Rgeb x y = false <-> x < y.
Proof. unfold Rgeb; destruct (Rge_dec x y); split; intros; try easy; lra. Qed.

Lemma fdiv_ok x y : y <> 0 -> fdiv x y = Ok (x / y).
Proof. intros H; unfold fdiv; destruct (Req_dec_T y 0); [contradiction | reflexivity]. Qed.

Lemma fdiv_zero x : fdiv x 0 = Raise ZeroDivisionError.
Proof. unfold fdiv; destruct (Req_dec_T 0 0); [reflexivity | contradiction]. Qed.

(** Unfolds the monad and splits on every test and every division. *)
Ltac step_monad :=
  unfold exec, outcome, discard, bind, ret, gets, modify, lift in *; cbn in *.

Ltac split_tests :=
  repeat match goal with
    | |- context [Rleb ?x ?y] => destruct (Rleb x y) eqn:?
    | |- context [Rltb ?x ?y] => destruct (Rltb x y) eqn:?
    | |- context [Rgeb ?x ?y] => destruct (Rgeb x y) eqn:?
    | |- context [fdiv ?x ?y] => destruct (fdiv x y) eqn:?
    end; cbn.

(** Reading the envelope or the amplitude writes no attribute. *)
Lemma calc_max_amp_pure s : exec _calc_max_amp s = s.
Proof. unfold _calc_max_amp; step_monad; split_tests; reflexivity. Qed.

Lemma calc_amplitude_pure s : exec _calc_amplitude s = s.
Proof.
  unfold _calc_amplitude, exec, bind.
  pose proof (calc_max_amp_pure s) as H; unfold exec in H.
  destruct (_calc_max_amp s) as [[a|e] s']; cbn in *; subst; reflexivity.
Qed.

(** The only division of the envelope that can fail is the first one:
    it divides by an acceleration duration of zero whenever the elapsed
    time is not positive. *)
Lemma calc_max_amp_raises s :
  outcome _calc_max_amp s = Raise ZeroDivisionError <->
  _length_shaking s <= 0 /\ _acceleration_duration s = 0.
Proof.
  unfold _calc_max_amp, outcome, bind, gets, ret, lift, duration; cbn.
  destruct (Rleb (_length_shaking s) (_acceleration_duration s)) eqn:E1; cbn.
  - apply Rleb_true in E1. unfold fdiv.
    destruct (Req_dec_T (_acceleration_duration s) 0) as [Z|NZ]; cbn.
    + split; [intros _; split; lra | reflexivity].
    + split; [discriminate | intros [_ H]; contradiction].
  - apply Rleb_false in E1.
    destruct (Rltb (falloff_duration s) 0) eqn:E2; cbn.
    + split; [discriminate | intros [H1 H2]; lra].
    + rewrite ?E2. apply Rltb_false in E2.
      destruct (Rleb (_length_shaking s)
                  (_acceleration_duration s + falloff_duration s)) eqn:E3; cbn.
      * apply Rleb_true in E3. rewrite fdiv_ok by lra. cbn.
        split; [discriminate | intros [H1 H2]; lra].
      * split; [discriminate | intros [H1 H2]; lra].
Qed.

Lemma result_cases {A : Type} (r : result A) :
  (exists a, r = Ok a) \/ r = Raise ZeroDivisionError.
Proof. destruct r as [a|[]]; [left; exists a; reflexivity | right; reflexivity]. Qed.

Lemma calc_max_amp_returns s :
  ~ (_length_shaking s <= 0 /\ _acceleration_duration s = 0) ->
  exists a, outcome _calc_max_amp s = Ok a.
Proof.
  intros H. destruct (result_cases (outcome _calc_max_amp s)) as [?|R]; [assumption|].
  apply calc_max_amp_raises in R. contradiction.
Qed.

Lemma calc_amplitude_outcome s :
  outcome _calc_amplitude s =
  match outcome _calc_max_amp s with
  | Ok m => Ok (sin (shake_frequency s * 2 * PI * _length_shaking s) * m)
  | Raise e => Raise e
  end.
Proof.
  pose proof (calc_max_amp_pure s) as P.
  unfold _calc_amplitude, outcome, exec, bind, gets, ret in *.
  destruct (_calc_max_amp s) as [[m|e] s']; cbn in *; subst; reflexivity.
Qed.

Lemma calc_amplitude_raises s :
  outcome _calc_amplitude s = Raise ZeroDivisionError <->
  _length_shaking s <= 0 /\ _acceleration_duration s = 0.
Proof.
  rewrite calc_amplitude_outcome, <- calc_max_amp_raises.
  destruct (outcome _calc_max_amp s) as [m|[]]; split; try discriminate; reflexivity.
Qed.

Lemma run_split {A : Type} (m : M A) s : m s = (outcome m s, exec m s).
Proof. unfold outcome, exec. destruct (m s); reflexivity. Qed.

(** ** One step of [update], case by case *)

Lemma stop_run s : stop s = (Ok tt, stopped s).
Proof. reflexivity. Qed.

Lemma update_offset_ok u dt s a :
  outcome _calc_amplitude (advance dt s) = Ok a ->
  update_offset u dt s = (Ok tt, shaken u dt a s).
Proof.
  intros H. unfold update_offset, bind, gets, modify. cbn.
  fold (advance dt s).
  rewrite (run_split _calc_amplitude), calc_amplitude_pure, H. reflexivity.
Qed.

Lemma update_offset_raise u dt s e :
  outcome _calc_amplitude (advance dt s) = Raise e ->
  update_offset u dt s = (Raise e, advance dt s).
Proof.
  intros H. unfold update_offset, bind, gets, modify. cbn.
  fold (advance dt s).
  rewrite (run_split _calc_amplitude), calc_amplitude_pure, H. reflexivity.
Qed.

Lemma update_idle u dt s : _shaking s = false -> update u dt s = (Ok tt, s).
Proof. intros H. unfold update, bind, gets. cbn. rewrite H. reflexivity. Qed.

Lemma update_raise u dt s e :
  _shaking s = true ->
  outcome _calc_amplitude (advance dt s) = Raise e ->
  update u dt s = (Raise e, advance dt s).
Proof.
  intros Hs H. unfold update, bind at 1, gets at 1. rewrite Hs. cbn.
  unfold bind at 1. rewrite (update_offset_raise _ _ _ _ H). reflexivity.
Qed.

Lemma update_continue u dt s a :
  _shaking s = true ->
  outcome _calc_amplitude (advance dt s) = Ok a ->
  _length_shaking s + dt < duration s ->
  update u dt s = (Ok tt, shaken u dt a s).
Proof.
  intros Hs H Hlt. unfold update, bind at 1, gets at 1. rewrite Hs. cbn.
  unfold bind at 1. rewrite (update_offset_ok _ _ _ _ H).
  unfold bind, gets. cbn.
  change (duration (shaken u dt a s)) with (duration s).
  apply Rgeb_false in Hlt. rewrite Hlt. reflexivity.
Qed.

Lemma update_finish u dt s a :
  _shaking s = true ->
  outcome _calc_amplitude (advance dt s) = Ok a ->
  duration s <= _length_shaking s + dt ->
  update u dt s = (Ok tt, stopped (shaken u dt a s)).
Proof.
  intros Hs H Hge. unfold update, bind at 1, gets at 1. rewrite Hs. cbn.
  unfold bind at 1. rewrite (update_offset_ok _ _ _ _ H).
  unfold bind, gets. cbn.
  change (duration (shaken u dt a s)) with (duration s).
  apply Rgeb_true in Hge. rewrite Hge. reflexivity.
Qed.

(** The four cases are all there is. *)
Lemma update_cases u dt s :
  (_shaking s = false /\ update u dt s = (Ok tt, s)) \/
  (_shaking s = true /\
   (_length_shaking s + dt <= 0 /\ _acceleration_duration s = 0) /\
   update u dt s = (Raise ZeroDivisionError, advance dt s)) \/
  (_shaking s = true /\ _length_shaking s + dt < duration s /\
   exists a, outcome _calc_amplitude (advance dt s) = Ok a /\
             update u dt s = (Ok tt, shaken u dt a s)) \/
  (_shaking s = true /\ duration s <= _length_shaking s + dt /\
   exists a, outcome _calc_amplitude (advance dt s) = Ok a /\
             update u dt s = (Ok tt, stopped (shaken u dt a s))).
Proof.
  destruct (_shaking s) eqn:Hs.
  - right.
    destruct (result_cases (outcome _calc_amplitude (advance dt s))) as [[a Ha]|Hr].
    + destruct (Rlt_dec (_length_shaking s + dt) (duration s)) as [Hlt|Hge].
      * right; left. repeat split; trivial. exists a; split; trivial.
        apply update_continue; assumption.
      * right; right. repeat split; [lra|]. exists a; split; trivial.
        apply update_finish; trivial; lra.
    + left. split; trivial. split.
      * apply calc_amplitude_raises in Hr. exact Hr.
      * apply update_raise; assumption.
  - left. split; trivial. apply update_idle; assumption.
Qed.

(** ** The controller's footprint on the camera position *)

Lemma vec3_eq (a b : vec3) :
  vx a = vx b -> vy a = vy b -> vz a = vz b -> a = b.
Proof.
  destruct a as [[a1 a2] a3], b as [[b1 b2] b3]; unfold vx, vy, vz; cbn.
  intros -> -> ->; reflexivity.
Qed.

(** Component-wise goals on positions, after the attribute writes are
    computed away. *)
Ltac by_components :=
  apply vec3_eq;
  repeat (progress (unfold stopped, shaken, advance, offset_of, camera, vadd,
                      vx, vy, vz in *; cbn in *));
  lra.

(** The same, with the components of a known vector [H : v = w]. *)
Ltac by_components_with H :=
  let X := fresh in let Y := fresh in let Z := fresh in
  pose proof (f_equal vx H) as X;
  pose proof (f_equal vy H) as Y;
  pose proof (f_equal vz H) as Z;
  by_components.

Lemma tracks_start s : tracks (camera s) (exec start s).
Proof. unfold tracks. by_components. Qed.

Lemma tracks_shaken base u dt a s : tracks base s -> tracks base (shaken u dt a s).
Proof.
  unfold tracks. intros H.
  assert (X : vx (camera s) = vx base + vx (_last_vector s)) by (rewrite H; reflexivity).
  assert (Y : vy (camera s) = vy base + vy (_last_vector s)) by (rewrite H; reflexivity).
  assert (Z : vz (camera s) = vz base + vz (_last_vector s)) by (rewrite H; reflexivity).
  by_components.
Qed.

Lemma tracks_stopped base s : tracks base s -> tracks base (stopped s).
Proof.
  unfold tracks. intros H.
  assert (X : vx (camera s) = vx base + vx (_last_vector s)) by (rewrite H; reflexivity).
  assert (Y : vy (camera s) = vy base + vy (_last_vector s)) by (rewrite H; reflexivity).
  assert (Z : vz (camera s) = vz base + vz (_last_vector s)) by (rewrite H; reflexivity).
  by_components.
Qed.

Lemma tracks_update base u dt s :
  tracks base s -> tracks base (exec (update u dt) s).
Proof.
  intros H. unfold exec.
  destruct (update_cases u dt s)
    as [[_ E]|[(_ & _ & E)|[(_ & _ & a & _ & E)|(_ & _ & a & _ & E)]]];
    rewrite E; cbn.
  - assumption.
  - exact H.
  - apply tracks_shaken; assumption.
  - apply tracks_stopped, tracks_shaken; assumption.
Qed.

Lemma tracks_drive base frames :
  forall s, tracks base s -> tracks base (drive frames s).
Proof.
  induction frames as [|[u dt] rest IH]; intros s H; cbn.
  - assumption.
  - apply IH, tracks_update, H.
Qed.

Lemma stopped_camera base s : tracks base s -> camera (stopped s) = base.
Proof.
  intros H. apply tracks_stopped in H. unfold tracks in H. rewrite H.
  by_components.
Qed.

(** C1 (reversibility).  Whatever the state [s] the controller and the
    camera are in, after [start()] and any sequence of [update] calls
    (any time steps, any samples of the random source, whether or not a
    call raised or the shake stopped by itself) the camera position is
    its value before [start()] plus [_last_vector], and [stop()] puts it
    back to exactly that value. *)
Theorem stop_restores_position (s : ScreenShake2D) (frames : list frame) :
  camera (drive frames (exec start s)) =
    vadd (camera s) (_last_vector (drive frames (exec start s))) /\
  camera (exec stop (drive frames (exec start s))) = camera s.
Proof.
  assert (H : tracks (camera s) (drive frames (exec start s)))
    by apply tracks_drive, tracks_start.
  split.
  - exact H.
  - unfold exec. rewrite stop_run. cbn [snd]. apply stopped_camera, H.
Qed.

(** ** The hold phase *)

Lemma current_amplitude_outcome s :
  outcome current_amplitude s =
  match outcome _calc_amplitude s with
  | Ok a => Ok (a * max_amplitude s)
  | Raise e => Raise e
  end.
Proof.
  pose proof (calc_amplitude_pure s) as P.
  unfold current_amplitude, outcome, exec, bind, gets, ret in *.
  destruct (_calc_amplitude s) as [[a|e] s']; cbn in *; subst; reflexivity.
Qed.

(** Past the acceleration, with the falloff disabled, [_calc_max_amp]
    returns [max_amplitude], and [current_amplitude] multiplies by
    [max_amplitude] once more. *)
Lemma calc_max_amp_hold s :
  _acceleration_duration s < _length_shaking s ->
  falloff_duration s < 0 ->
  outcome _calc_max_amp s = Ok (max_amplitude s).
Proof.
  intros H1 H2. apply Rleb_false in H1. apply Rltb_true in H2.
  unfold _calc_max_amp, outcome, bind, gets; cbn.
  rewrite H1; cbn. rewrite H2. reflexivity.
Qed.

Lemma current_amplitude_hold s :
  _acceleration_duration s < _length_shaking s ->
  falloff_duration s < 0 ->
  outcome current_amplitude s =
    Ok (sin (shake_frequency s * 2 * PI * _length_shaking s)
        * max_amplitude s * max_amplitude s).
Proof.
  intros H1 H2.
  rewrite current_amplitude_outcome, calc_amplitude_outcome,
    (calc_max_amp_hold s H1 H2).
  reflexivity.
Qed.

Lemma hold_state_attributes :
  _length_shaking hold_state = 1 /\ _acceleration_duration hold_state = 0.5 /\
  falloff_duration hold_state = -1 /\ max_amplitude hold_state = 2 /\
  shake_frequency hold_state = 0.25 /\ _shaking hold_state = true.
Proof.
  unfold hold_state.
  set (s1 := exec (perform CallStart) _).
  assert (D : duration s1 = 1.5).
  { unfold duration; cbn. destruct (Rltb 1 0) eqn:E.
    - apply Rltb_true in E; lra.
    - lra. }
  destruct (update_cases 0 1 s1)
    as [[F _]|[(_ & [_ F] & _)|[(_ & _ & a & _ & E)|(_ & F & _)]]].
  - discriminate F.
  - exfalso. cbn in F. lra.
  - assert (X : exec (perform (CallUpdate 0 1)) s1 = shaken 0 1 a s1)
      by (unfold exec; cbn [perform]; rewrite E; reflexivity).
    rewrite X. unfold shaken, advance, s1. cbn. repeat split; lra.
  - exfalso. rewrite D in F. cbn in F. lra.
Qed.

(** C2.  At [hold_state] the falloff is disabled and the elapsed time
    is past the acceleration duration; the envelope [_calc_max_amp]
    returns 2 (the value of [max_amplitude]), not 1, and
    [current_amplitude] is 4, that is [max_amplitude] squared times the
    sinusoid, not [max_amplitude] times the sinusoid. *)
Theorem hold_envelope_is_max_amplitude :
  falloff_duration hold_state < 0 /\
  _acceleration_duration hold_state < _length_shaking hold_state /\
  outcome _calc_max_amp hold_state = Ok 2 /\
  outcome _calc_max_amp hold_state <> Ok 1 /\
  sin (shake_frequency hold_state * 2 * PI * _length_shaking hold_state) = 1 /\
  outcome current_amplitude hold_state = Ok 4.
Proof.
  destruct hold_state_attributes as (L & A & F & Mx & Fr & _).
  assert (H1 : _acceleration_duration hold_state < _length_shaking hold_state)
    by (rewrite A, L; lra).
  assert (H2 : falloff_duration hold_state < 0) by (rewrite F; lra).
  assert (S : sin (shake_frequency hold_state * 2 * PI
                   * _length_shaking hold_state) = 1).
  { rewrite Fr, L. replace (0.25 * 2 * PI * 1) with (PI / 2) by lra.
    apply sin_PI2. }
  repeat split; trivial.
  - rewrite (calc_max_amp_hold _ H1 H2), Mx. reflexivity.
  - rewrite (calc_max_amp_hold _ H1 H2), Mx. intros E; inversion E; lra.
  - rewrite (current_amplitude_hold _ H1 H2), S, Mx. f_equal; lra.
Qed.

(** ** Divisions by zero *)

(** C3.  Three calls that raise [ZeroDivisionError]: [update(0.0)] right
    after [start()] on a controller whose acceleration duration is 0,
    the assignment [duration = 1.0] on a controller whose two durations
    are 0, and reading [falloff] there. *)
Theorem division_by_zero_reached :
  outcome (perform (CallUpdate 0 0)) instant_start = Raise ZeroDivisionError /\
  outcome (perform (AssignDuration 1)) zero_length = Raise ZeroDivisionError /\
  outcome (perform ReadFalloff) zero_length = Raise ZeroDivisionError.
Proof.
  split; [|split].
  - cbn [perform]. unfold outcome.
    rewrite (update_raise 0 0 instant_start ZeroDivisionError).
    + reflexivity.
    + reflexivity.
    + apply calc_amplitude_raises. cbn. split; lra.
  - cbn [perform]. unfold outcome, set_duration, zero_length, init.
    destruct (Rleb 1 0) eqn:E1; [apply Rleb_true in E1; lra|].
    unfold bind, gets, lift, duration; cbn.
    destruct (Rltb 0 0) eqn:E2; [apply Rltb_true in E2; lra|].
    cbn. rewrite E2. replace (0 + 0) with 0 by lra. rewrite fdiv_zero.
    reflexivity.
  - cbn [perform]. unfold outcome, discard, falloff, zero_length, init.
    unfold bind, gets, lift; cbn.
    destruct (Rltb 0 0) eqn:E2; [apply Rltb_true in E2; lra|].
    cbn. rewrite fdiv_zero. reflexivity.
Qed.

(** ** What the calls leave alone *)

Lemma current_amplitude_pure s : exec current_amplitude s = s.
Proof.
  pose proof (calc_amplitude_pure s) as P.
  unfold current_amplitude, exec, bind, gets, ret in *.
  destruct (_calc_amplitude s) as [[a|e] s']; cbn in *; subst; reflexivity.
Qed.

Lemma discard_exec {A : Type} (m : M A) s : exec (discard m) s = exec m s.
Proof.
  unfold discard, exec, bind, ret. destruct (m s) as [[a|e] s']; reflexivity.
Qed.

(** Assignments of the configuration and reads of properties touch
    neither the transient attributes nor the camera. *)
Lemma configuration_frame c s :
  is_lifecycle c = false ->
  _shaking (exec (perform c) s) = _shaking s /\
  _length_shaking (exec (perform c) s) = _length_shaking s /\
  _last_vector (exec (perform c) s) = _last_vector s /\
  camera (exec (perform c) s) = camera s.
Proof.
  destruct c; cbn [is_lifecycle perform]; try discriminate; intros _;
    rewrite ?discard_exec, ?current_amplitude_pure;
    try (unfold set_duration, set_acceleration_duration_prop,
           set_acceleration, set_falloff, acceleration, falloff;
         step_monad; split_tests; repeat split; reflexivity).
Qed.

Lemma idle_offset_update u dt s :
  idle_offset s -> idle_offset (exec (update u dt) s).
Proof.
  intros [Hz Hi]. unfold exec.
  destruct (update_cases u dt s)
    as [[Hs E]|[(Hs & _ & E)|[(Hs & _ & a & _ & E)|(Hs & _ & a & _ & E)]]];
    rewrite E; cbn [snd].
  - split; assumption.
  - split; [exact Hz | cbn; rewrite Hs; discriminate].
  - split; [reflexivity | cbn; rewrite Hs; discriminate].
  - split; [reflexivity | reflexivity].
Qed.

Lemma idle_offset_perform c s :
  idle_offset s -> idle_offset (exec (perform c) s).
Proof.
  intros H. destruct (is_lifecycle c) eqn:L.
  - destruct c; try discriminate L; cbn [perform].
    + split; [reflexivity | discriminate].
    + split; reflexivity.
    + split; reflexivity.
    + apply idle_offset_update, H.
  - destruct (configuration_frame c s L) as (Hs & _ & Hl & _).
    unfold idle_offset. rewrite Hs, Hl. exact H.
Qed.

Lemma reachable_idle_offset s : reachable s -> idle_offset s.
Proof.
  induction 1 as [cam ma ft ad f dd | s c _ IH | s p _ IH].
  - split; reflexivity.
  - apply idle_offset_perform, IH.
  - exact IH.
Qed.

(** ** The envelope at its boundaries *)

Lemma acceleration_amp_0 : _acceleration_amp 0 = 0.
Proof. unfold _acceleration_amp. rewrite Rmult_0_r, exp_0. lra. Qed.

Lemma acceleration_amp_1 : _acceleration_amp 1 = 1.
Proof.
  unfold _acceleration_amp. rewrite Rmult_1_r, exp_ln by lra. lra.
Qed.

Lemma falloff_amp_0 : _falloff_amp 0 = 1.
Proof. unfold _falloff_amp. lra. Qed.

Lemma falloff_amp_1 : _falloff_amp 1 = 0.
Proof. unfold _falloff_amp. lra. Qed.

(** In the acceleration phase, with a non-zero acceleration duration. *)
Lemma calc_max_amp_rise s :
  _length_shaking s <= _acceleration_duration s ->
  _acceleration_duration s <> 0 ->
  outcome _calc_max_amp s =
    Ok (_acceleration_amp (_length_shaking s / _acceleration_duration s)).
Proof.
  intros H1 H2. apply Rleb_true in H1.
  unfold _calc_max_amp, outcome, bind, gets, lift, ret; cbn.
  rewrite H1, (fdiv_ok _ _ H2). reflexivity.
Qed.

(** In the falloff phase. *)
Lemma calc_max_amp_fall s :
  _acceleration_duration s < _length_shaking s ->
  0 < falloff_duration s ->
  _length_shaking s <= _acceleration_duration s + falloff_duration s ->
  outcome _calc_max_amp s =
    Ok (_falloff_amp ((_length_shaking s - _acceleration_duration s)
                      / falloff_duration s)).
Proof.
  intros H1 H2 H3.
  assert (F : Rltb (falloff_duration s) 0 = false) by (apply Rltb_false; lra).
  apply Rleb_false in H1. apply Rleb_true in H3.
  unfold _calc_max_amp, outcome, bind, gets, lift, ret, duration; cbn.
  rewrite H1; cbn. rewrite F; cbn. rewrite F, H3; cbn.
  rewrite fdiv_ok by lra. reflexivity.
Qed.

(** C8 (envelope boundary values).  With a positive acceleration
    duration the envelope is 0 at elapsed time 0 and 1 at the end of the
    acceleration (so within 1e-3 of 1); with a positive falloff duration
    as well it is 0 at [duration]. *)
Theorem envelope_boundary_values (s : ScreenShake2D)
    (Ha : 0 < _acceleration_duration s) :
  envelope 0 s = Ok 0 /\
  envelope (_acceleration_duration s) s = Ok 1 /\
  (exists v, envelope (_acceleration_duration s) s = Ok v /\
             Rabs (v - 1) <= 0.001) /\
  (0 < falloff_duration s -> envelope (duration s) s = Ok 0).
Proof.
  assert (E1 : envelope (_acceleration_duration s) s = Ok 1).
  { unfold envelope. rewrite calc_max_amp_rise; cbn; try lra.
    unfold Rdiv. rewrite Rinv_r by lra. rewrite acceleration_amp_1.
    reflexivity. }
  repeat split.
  - unfold envelope. rewrite calc_max_amp_rise; cbn; try lra.
    unfold Rdiv. rewrite Rmult_0_l, acceleration_amp_0. reflexivity.
  - exact E1.
  - exists 1. split; [exact E1|].
    replace (1 - 1) with 0 by lra. rewrite Rabs_R0. lra.
  - intros Hf. unfold envelope.
    assert (D : duration s = _acceleration_duration s + falloff_duration s).
    { unfold duration. destruct (Rltb (falloff_duration s) 0) eqn:E;
        [apply Rltb_true in E; lra | reflexivity]. }
    rewrite D, calc_max_amp_fall; cbn; try lra.
    replace ((_acceleration_duration s + falloff_duration s
              - _acceleration_duration s) / falloff_duration s) with 1
      by (field; lra).
    rewrite falloff_amp_1. reflexivity.
Qed.

Lemma envelope_boundary_values_witness :
  envelope 0 (init_default (mkCameraData (0, 0, 0))) = Ok 0 /\
  envelope 1 (init_default (mkCameraData (0, 0, 0))) = Ok 1 /\
  envelope 2 (init_default (mkCameraData (0, 0, 0))) = Ok 0.
Proof.
  assert (Ha : 0 < _acceleration_duration
                     (init_default (mkCameraData (0, 0, 0))))
    by (cbn; lra).
  pose proof (envelope_boundary_values
                (init_default (mkCameraData (0, 0, 0))) Ha) as (H0 & H1 & _ & H2).
  split; [exact H0 | split; [exact H1 |]].
  assert (Hf : 0 < falloff_duration (init_default (mkCameraData (0, 0, 0))))
    by (cbn; lra).
  specialize (H2 Hf).
  replace 2 with (duration (init_default (mkCameraData (0, 0, 0)))).
  - exact H2.
  - unfold duration; cbn. destruct (Rltb 1 0) eqn:E;
      [apply Rltb_true in E; lra | lra].
Defined.

(** ** [stop] *)

(** The shadowed first definition differs from the effective one in a
    single attribute: it leaves [_shaking] as it was. *)
Lemma stop_shadowed_keeps_shaking s :
  exec stop_shadowed s = set_shaking (_shaking s) (exec stop s).
Proof. reflexivity. Qed.

(** C4.  [stop()] returns without raising; it subtracts [_last_vector]
    from the camera position component by component, zeroes the elapsed
    time, the last offset, the direction and the last update time,
    clears [_shaking] and keeps the configuration.  On a controller that
    is not shaking the camera position stays as it is, the last offset
    being the zero vector then. *)
Theorem stop_undoes_last_offset (s : ScreenShake2D) (Hr : reachable s) :
  outcome stop s = Ok tt /\
  camera (exec stop s) =
    (vx (camera s) - vx (_last_vector s),
     vy (camera s) - vy (_last_vector s),
     vz (camera s) - vz (_last_vector s)) /\
  _length_shaking (exec stop s) = 0 /\
  _last_vector (exec stop s) = (0, 0, 0) /\
  _current_dir (exec stop s) = 0 /\
  _last_update_time (exec stop s) = 0 /\
  _shaking (exec stop s) = false /\
  (max_amplitude (exec stop s) = max_amplitude s /\
   falloff_duration (exec stop s) = falloff_duration s /\
   shake_frequency (exec stop s) = shake_frequency s /\
   _acceleration_duration (exec stop s) = _acceleration_duration s /\
   direction_deg (exec stop s) = direction_deg s) /\
  (_shaking s = false ->
   _last_vector s = (0, 0, 0) /\ camera (exec stop s) = camera s).
Proof.
  repeat split.
  - apply reachable_idle_offset in Hr. destruct Hr as [_ Hi]. auto.
  - apply reachable_idle_offset in Hr. destruct Hr as [_ Hi].
    specialize (Hi H). unfold exec; rewrite stop_run; cbn [snd].
    by_components_with Hi.
Qed.

Lemma stop_undoes_last_offset_witness :
  camera (exec stop (init_default (mkCameraData (1, 2, 3)))) = (1, 2, 3).
Proof.
  pose proof (stop_undoes_last_offset (init_default (mkCameraData (1, 2, 3)))
                (reach_init (mkCameraData (1, 2, 3)) 1 1 1 15 None)) as H.
  destruct H as (_ & _ & _ & _ & _ & _ & _ & _ & Hidle).
  destruct (Hidle eq_refl) as [_ Hcam]. exact Hcam.
Defined.

(** ** The z-component *)

Lemma update_keeps_z u dt s :
  vz (_last_vector s) = 0 ->
  vz (camera (exec (update u dt) s)) = vz (camera s).
Proof.
  intros Hz. unfold exec.
  destruct (update_cases u dt s)
    as [[_ E]|[(_ & _ & E)|[(_ & _ & a & _ & E)|(_ & _ & a & _ & E)]]];
    rewrite E; cbn [snd]; try reflexivity;
    unfold stopped, shaken, advance, offset_of, camera in *; cbn;
    unfold vz in *; cbn; lra.
Qed.

(** C10.  On every state a controller can be in, the z-component of
    [_last_vector] is 0, and no call changes the z-component of the
    camera position. *)
Theorem camera_z_unchanged (s : ScreenShake2D) (Hr : reachable s) (c : call) :
  vz (_last_vector s) = 0 /\
  vz (_last_vector (exec (perform c) s)) = 0 /\
  vz (camera (exec (perform c) s)) = vz (camera s).
Proof.
  pose proof (reachable_idle_offset _ Hr) as I.
  pose proof (idle_offset_perform c s I) as [Hz' _].
  destruct I as [Hz _].
  repeat split; trivial.
  destruct (is_lifecycle c) eqn:L.
  - destruct c; try discriminate L; cbn [perform].
    + reflexivity.
    + unfold exec; rewrite stop_run; cbn [snd].
      unfold stopped, camera; cbn. unfold vz in *; cbn. lra.
    + reflexivity.
    + apply update_keeps_z, Hz.
  - destruct (configuration_frame c s L) as (_ & _ & _ & Hc).
    rewrite Hc. reflexivity.
Qed.

Lemma camera_z_unchanged_witness :
  vz (camera (exec (perform (CallUpdate 0 0.5))
                (exec (perform CallStart)
                   (init_default (mkCameraData (1, 2, 3)))))) = 3.
Proof.
  pose proof (camera_z_unchanged
                (exec (perform CallStart)
                   (init_default (mkCameraData (1, 2, 3))))
                (reach_call _ CallStart
                   (reach_init (mkCameraData (1, 2, 3)) 1 1 1 15 None))
                (CallUpdate 0 0.5)) as (_ & _ & H).
  exact H.
Defined.

(** ** [start] and [reset] *)

Lemma mid_shake_attributes :
  _shaking mid_shake = true /\
  _last_vector mid_shake = (1, 0, 0) /\
  camera mid_shake = (1, 0, 0).
Proof.
  unfold mid_shake. set (s1 := exec (perform CallStart) _).
  assert (A : outcome _calc_amplitude (advance 1 s1) = Ok 1).
  { rewrite calc_amplitude_outcome, calc_max_amp_rise; cbn; try lra.
    replace ((0 + 1) / 1) with 1 by lra. rewrite acceleration_amp_1.
    replace (0.25 * 2 * PI * (0 + 1)) with (PI / 2) by lra.
    rewrite sin_PI2. f_equal; lra. }
  assert (D : 0 + 1 < duration s1).
  { unfold duration; cbn. destruct (Rltb 1 0) eqn:E;
      [apply Rltb_true in E; lra | lra]. }
  assert (X : exec (perform (CallUpdate 0 1)) s1 = shaken 0 1 1 s1).
  { unfold exec; cbn [perform].
    rewrite (update_continue 0 1 s1 1 eq_refl A D). reflexivity. }
  rewrite X.
  assert (S1 : sin (90 * (PI / 180)) = 1)
    by (replace (90 * (PI / 180)) with (PI / 2) by lra; apply sin_PI2).
  assert (S2 : sin (90 * (PI / 180) + PI / 2) = 0)
    by (replace (90 * (PI / 180) + PI / 2) with PI by lra; apply sin_PI).
  split; [reflexivity|].
  split; apply vec3_eq; unfold shaken, offset_of, angle_of, camera, s1; cbn;
    unfold vx, vy, vz; cbn; rewrite ?S1, ?S2; lra.
Qed.

(** C9.  [start()] and [reset()] return without raising, leave the
    camera position as it is and commute with any write of it (they do
    not read it); [reset] writes four transient attributes and [start]
    sets [_shaking] on top.  So when the camera sits at [base] plus a
    last offset, a [start()] there makes every later [stop()] return the
    camera to [base] plus that offset: the offset stays applied. *)
Theorem start_and_reset_leave_camera (base : vec3) (s : ScreenShake2D)
    (Ht : tracks base s) :
  (outcome start s = Ok tt /\ outcome reset s = Ok tt) /\
  (camera (exec start s) = camera s /\ camera (exec reset s) = camera s) /\
  (forall p, exec start (set_position p s) = set_position p (exec start s)) /\
  (forall p, exec reset (set_position p s) = set_position p (exec reset s)) /\
  exec reset s =
    set_length_shaking 0
      (set_last_update_time 0
         (set_last_vector (0, 0, 0) (set_current_dir 0 s))) /\
  exec start s = set_shaking true (exec reset s) /\
  (forall frames,
     camera (exec stop (drive frames (exec start s))) =
       vadd base (_last_vector s)).
Proof.
  repeat split.
  intros frames. unfold exec at 1. rewrite stop_run. cbn [snd].
  rewrite (stopped_camera (camera s)).
  - exact Ht.
  - apply tracks_drive, tracks_start.
Qed.

Lemma start_and_reset_leave_camera_witness :
  camera (exec stop (drive [] (exec start mid_shake))) = (1, 0, 0) /\
  camera (exec stop (drive [] (exec start mid_shake))) <> (0, 0, 0).
Proof.
  destruct mid_shake_attributes as (_ & L & C).
  assert (Ht : tracks (0, 0, 0) mid_shake).
  { unfold tracks. rewrite L, C. apply vec3_eq; cbn; lra. }
  pose proof (start_and_reset_leave_camera (0, 0, 0) mid_shake Ht)
    as (_ & _ & _ & _ & _ & _ & H).
  specialize (H []). rewrite L in H.
  assert (E : camera (exec stop (drive [] (exec start mid_shake))) = (1, 0, 0)).
  { rewrite H. apply vec3_eq; cbn; lra. }
  split; [exact E|].
  rewrite E. intros F. apply (f_equal vx) in F. cbn in F. lra.
Defined.

(** ** The [duration] setter *)

Lemma duration_enabled s :
  0 <= falloff_duration s ->
  duration s = _acceleration_duration s + falloff_duration s.
Proof.
  intros H. unfold duration. apply Rltb_false in H. rewrite H. reflexivity.
Qed.

Lemma duration_disabled s :
  falloff_duration s < 0 -> duration s = _acceleration_duration s.
Proof.
  intros H. unfold duration. apply Rltb_true in H. rewrite H. reflexivity.
Qed.

(** C5.  The three branches of the [duration] setter.  A new duration
    [D <= 0] sets [falloff_duration] to -1 and nothing else.  A positive
    [D] while the falloff is disabled sets [_acceleration_duration] to
    [D] and nothing else.  A positive [D] while the falloff is enabled
    and the current duration is positive multiplies both durations by
    [D / duration]; the getter then returns [D] and the proportion of
    the two durations is the one before. *)
Theorem set_duration_branches (s : ScreenShake2D) (D : R) :
  (D <= 0 ->
   set_duration D s = (Ok tt, set_falloff_duration (-1) s)) /\
  (0 < D -> falloff_duration s < 0 ->
   set_duration D s = (Ok tt, set_acceleration_duration D s)) /\
  (0 < D -> 0 <= falloff_duration s -> 0 < duration s ->
   set_duration D s =
     (Ok tt,
      set_falloff_duration (D / duration s * falloff_duration s)
        (set_acceleration_duration
           (D / duration s * _acceleration_duration s) s)) /\
   duration (exec (set_duration D) s) = D /\
   _acceleration_duration (exec (set_duration D) s) * falloff_duration s =
     _acceleration_duration s * falloff_duration (exec (set_duration D) s)).
Proof.
  split; [|split].
  - intros H. apply Rleb_true in H. unfold set_duration. rewrite H.
    reflexivity.
  - intros H1 H2. apply Rleb_false in H1. apply Rltb_true in H2.
    unfold set_duration. rewrite H1. unfold bind, gets. rewrite H2.
    reflexivity.
  - intros H1 H2 H3.
    assert (E : set_duration D s =
      (Ok tt,
       set_falloff_duration (D / duration s * falloff_duration s)
         (set_acceleration_duration
            (D / duration s * _acceleration_duration s) s))).
    { pose proof H1 as B1. pose proof H2 as B2.
      apply Rleb_false in B1. apply Rltb_false in B2.
      unfold set_duration. rewrite B1. unfold bind, gets, lift. rewrite B2.
      rewrite fdiv_ok by lra. reflexivity. }
    split; [exact E|].
    unfold exec. rewrite E. cbn [snd].
    pose proof (duration_enabled s H2) as Ds.
    assert (R0 : 0 < D / duration s) by (apply Rdiv_lt_0_compat; lra).
    split.
    + rewrite duration_enabled.
      * cbn. rewrite Ds. field. lra.
      * cbn. apply Rmult_le_pos; lra.
    + cbn. ring.
Qed.

Lemma set_duration_branches_witness :
  duration (exec (set_duration 4) (init_default (mkCameraData (0, 0, 0)))) = 4
  /\ falloff_duration
       (exec (set_duration 0) (init_default (mkCameraData (0, 0, 0)))) = -1
  /\ _acceleration_duration
       (exec (set_duration 4)
          (init (mkCameraData (0, 0, 0)) 1 (-1) 1 15 None)) = 4.
Proof.
  split; [|split].
  - pose proof (set_duration_branches
                  (init_default (mkCameraData (0, 0, 0))) 4) as (_ & _ & H).
    assert (D : duration (init_default (mkCameraData (0, 0, 0))) = 1 + 1)
      by (apply duration_enabled; cbn; lra).
    destruct H as (_ & H & _).
    + lra.
    + cbn; lra.
    + rewrite D; lra.
    + exact H.
  - pose proof (set_duration_branches
                  (init_default (mkCameraData (0, 0, 0))) 0) as (H & _).
    unfold exec. rewrite H by lra. reflexivity.
  - pose proof (set_duration_branches
                  (init (mkCameraData (0, 0, 0)) 1 (-1) 1 15 None) 4)
      as (_ & H & _).
    unfold exec. rewrite H by (cbn; lra). reflexivity.
Defined.

(** ** Auto-stop *)

(** [update] returns unless it divides by a zero acceleration
    duration. *)
Lemma update_returns u dt s :
  (exists s', update u dt s = (Ok tt, s')) <->
  ~ (_shaking s = true /\
     _length_shaking s + dt <= 0 /\ _acceleration_duration s = 0).
Proof.
  destruct (update_cases u dt s)
    as [[Hs E]|[(Hs & G & E)|[(Hs & _ & a & A & E)|(Hs & _ & a & A & E)]]].
  - split.
    + intros _ (F & _). congruence.
    + intros _. exists s. exact E.
  - split.
    + intros [s' F]. rewrite E in F. discriminate F.
    + intros N. exfalso. apply N. split; assumption.
  - split.
    + intros _ (_ & G).
      assert (F : outcome _calc_amplitude (advance dt s)
                  = Raise ZeroDivisionError)
        by (apply calc_amplitude_raises; exact G).
      congruence.
    + intros _. eexists. exact E.
  - split.
    + intros _ (_ & G).
      assert (F : outcome _calc_amplitude (advance dt s)
                  = Raise ZeroDivisionError)
        by (apply calc_amplitude_raises; exact G).
      congruence.
    + intros _. eexists. exact E.
Qed.

(** What an [update] that returns has done about stopping. *)
Lemma update_stops_on_return u dt s s' :
  update u dt s = (Ok tt, s') ->
  (_shaking s = true -> duration s <= _length_shaking s + dt ->
   _shaking s' = false /\ _length_shaking s' = 0 /\
   _last_vector s' = (0, 0, 0) /\ _current_dir s' = 0 /\
   _last_update_time s' = 0) /\
  (_shaking s' = true -> _length_shaking s' < duration s').
Proof.
  intros R.
  destruct (update_cases u dt s)
    as [[Hs E]|[(Hs & G & E)|[(Hs & L & a & A & E)|(Hs & L & a & A & E)]]];
    rewrite E in R; inversion R; subst s'; clear R.
  - split; intros F; congruence.
  - split.
    + intros _ Hd. lra.
    + intros _. exact L.
  - split.
    + intros _ _. repeat split.
    + intros F. discriminate F.
Qed.

(** C6.  Two calls [update(0.0)] made while shaking with the advanced
    elapsed time at [duration] that do not stop the shake: right after
    [start()] on a controller whose two durations are 0, and on one
    whose acceleration duration is 0 and whose falloff is disabled.
    The call raises [ZeroDivisionError] in the envelope, before the
    test that would call [stop()], and leaves the controller shaking
    with its elapsed time at [duration]. *)
Theorem update_raise_skips_auto_stop :
  (_shaking (exec start zero_length) = true /\
   duration (exec start zero_length)
     <= _length_shaking (exec start zero_length) + 0 /\
   outcome (update 0 0) (exec start zero_length)
     = Raise ZeroDivisionError /\
   _shaking (exec (update 0 0) (exec start zero_length)) = true /\
   duration (exec (update 0 0) (exec start zero_length))
     <= _length_shaking (exec (update 0 0) (exec start zero_length))) /\
  (_shaking (exec start (init (mkCameraData (0, 0, 0)) 1 (-1) 0 15 None))
     = true /\
   falloff_duration
     (exec start (init (mkCameraData (0, 0, 0)) 1 (-1) 0 15 None)) < 0 /\
   duration (exec start (init (mkCameraData (0, 0, 0)) 1 (-1) 0 15 None))
     <= _length_shaking
          (exec start (init (mkCameraData (0, 0, 0)) 1 (-1) 0 15 None)) + 0 /\
   outcome (update 0 0)
     (exec start (init (mkCameraData (0, 0, 0)) 1 (-1) 0 15 None))
     = Raise ZeroDivisionError /\
   _shaking
     (exec (update 0 0)
        (exec start (init (mkCameraData (0, 0, 0)) 1 (-1) 0 15 None)))
     = true).
Proof.
  split.
  - set (s := exec start zero_length).
    assert (D : duration s = 0 + 0) by (apply duration_enabled; cbn; lra).
    assert (U : update 0 0 s = (Raise ZeroDivisionError, advance 0 s)).
    { apply update_raise; [reflexivity|].
      apply calc_amplitude_raises. cbn. split; lra. }
    assert (O : outcome (update 0 0) s = Raise ZeroDivisionError)
      by (unfold outcome; rewrite U; reflexivity).
    assert (X : exec (update 0 0) s = advance 0 s)
      by (unfold exec; rewrite U; reflexivity).
    rewrite O, X.
    change (duration (advance 0 s)) with (duration s). rewrite D.
    repeat split; cbn; lra.
  - set (s := exec start (init (mkCameraData (0, 0, 0)) 1 (-1) 0 15 None)).
    assert (D : duration s = 0) by (apply duration_disabled; cbn; lra).
    assert (U : update 0 0 s = (Raise ZeroDivisionError, advance 0 s)).
    { apply update_raise; [reflexivity|].
      apply calc_amplitude_raises. cbn. split; lra. }
    assert (O : outcome (update 0 0) s = Raise ZeroDivisionError)
      by (unfold outcome; rewrite U; reflexivity).
    assert (X : exec (update 0 0) s = advance 0 s)
      by (unfold exec; rewrite U; reflexivity).
    rewrite O, X, D.
    repeat split; cbn; lra.
Qed.

Lemma half_way_attributes :
  _shaking half_way = true /\ _length_shaking half_way = 0.25 /\
  _acceleration_duration half_way = 0.2 /\ falloff_duration half_way = 0.3.
Proof.
  unfold half_way. set (s1 := exec start _).
  assert (D : duration s1 = 0.2 + 0.3) by (apply duration_enabled; cbn; lra).
  destruct (update_cases 0 0.25 s1)
    as [[F _]|[(_ & [_ F] & _)|[(_ & _ & a & _ & E)|(_ & F & _)]]].
  - discriminate F.
  - exfalso. cbn in F. lra.
  - assert (X : exec (update 0 0.25) s1 = shaken 0 0.25 a s1)
      by (unfold exec; rewrite E; reflexivity).
    rewrite X. unfold shaken, advance, s1. cbn. repeat split; lra.
  - exfalso. rewrite D in F. cbn in F. lra.
Qed.

(** ** A fixed direction *)

Lemma shaken_fixed_direction s d u1 u2 dt a :
  direction_deg s = Some d -> shaken u1 dt a s = shaken u2 dt a s.
Proof.
  intros H. unfold shaken, offset_of, angle_of. rewrite H. reflexivity.
Qed.

Lemma update_fixed_direction s d u1 u2 dt :
  direction_deg s = Some d -> update u1 dt s = update u2 dt s.
Proof.
  intros H.
  destruct (update_cases u1 dt s)
    as [[Hs E]|[(Hs & G & E)|[(Hs & L & a & A & E)|(Hs & L & a & A & E)]]];
    rewrite E.
  - symmetry. apply update_idle, Hs.
  - symmetry. apply update_raise; [exact Hs|].
    apply calc_amplitude_raises. exact G.
  - rewrite (shaken_fixed_direction s d u1 u2 dt a H).
    symmetry. apply update_continue; assumption.
  - rewrite (shaken_fixed_direction s d u1 u2 dt a H).
    symmetry. apply update_finish; assumption.
Qed.

Lemma update_keeps_direction u dt s :
  direction_deg (exec (update u dt) s) = direction_deg s.
Proof.
  unfold exec.
  destruct (update_cases u dt s)
    as [[_ E]|[(_ & _ & E)|[(_ & _ & a & _ & E)|(_ & _ & a & _ & E)]]];
    rewrite E; reflexivity.
Qed.

Lemma drive_fixed_direction frames1 :
  forall frames2 s d,
    direction_deg s = Some d ->
    map snd frames1 = map snd frames2 ->
    drive frames1 s = drive frames2 s.
Proof.
  induction frames1 as [|[u1 dt1] rest1 IH]; intros [|[u2 dt2] rest2] s d H E;
    cbn in E; try discriminate E.
  - reflexivity.
  - injection E as E1 E2. subst dt2. cbn.
    assert (X : exec (update u1 dt1) s = exec (update u2 dt1) s)
      by (unfold exec; rewrite (update_fixed_direction s d u1 u2 dt1 H);
          reflexivity).
    rewrite X. apply (IH rest2 _ d).
    + rewrite update_keeps_direction. exact H.
    + exact E2.
Qed.

(** The amplitude at the peak of the acceleration of a controller
    built with [shake_frequency=0.25, direction_deg=90] and defaults
    otherwise, one second after [start()]. *)
Lemma peak_amplitude :
  outcome _calc_amplitude
    (advance 1
       (exec start (init (mkCameraData (0, 0, 0)) 1 1 1 0.25 (Some 90))))
  = Ok 1.
Proof.
  rewrite calc_amplitude_outcome, calc_max_amp_rise; cbn; try lra.
  replace ((0 + 1) / 1) with 1 by lra. rewrite acceleration_amp_1.
  replace (0.25 * 2 * PI * (0 + 1)) with (PI / 2) by lra.
  rewrite sin_PI2. f_equal; lra.
Qed.

(** C7 (fixed-direction determinism).  With [direction_deg] set to [d],
    [update] does not depend on the sample of the random source, neither
    in its outcome nor in the state it leaves, and so two runs over the
    same time steps from the same state end in the same state, camera
    included.  For the amplitude [a] that [_calc_amplitude] returns at
    the advanced elapsed time, a call of [update] made while shaking
    that returns has written the offset
    [(a * sin angle, a * sin (angle + pi/2), 0)] with
    [angle = d * (pi / 180)] and moved the camera by that offset minus
    the previous one, when the shake goes on; when the shake ends with
    this call, the offset is taken back at once: the camera is where it
    was minus the previous offset, and the last offset is zero. *)
Theorem fixed_direction_deterministic (s : ScreenShake2D) (d : R)
    (Hd : direction_deg s = Some d) :
  (forall u1 u2 dt, update u1 dt s = update u2 dt s) /\
  (forall frames1 frames2,
     map snd frames1 = map snd frames2 ->
     drive frames1 s = drive frames2 s) /\
  (forall u dt a,
     outcome _calc_amplitude (advance dt s) = Ok a ->
     update_offset u dt s = (Ok tt, shaken u dt a s) /\
     _last_vector (shaken u dt a s) =
       (a * sin (d * (PI / 180)), a * sin (d * (PI / 180) + PI / 2), 0) /\
     camera (shaken u dt a s) =
       (vx (camera s) - vx (_last_vector s) + a * sin (d * (PI / 180)),
        vy (camera s) - vy (_last_vector s)
          + a * sin (d * (PI / 180) + PI / 2),
        vz (camera s) - vz (_last_vector s))) /\
  (forall u dt a s',
     _shaking s = true ->
     outcome _calc_amplitude (advance dt s) = Ok a ->
     update u dt s = (Ok tt, s') ->
     (_length_shaking s + dt < duration s ->
      _shaking s' = true /\
      _last_vector s' =
        (a * sin (d * (PI / 180)), a * sin (d * (PI / 180) + PI / 2), 0) /\
      camera s' =
        (vx (camera s) - vx (_last_vector s) + a * sin (d * (PI / 180)),
         vy (camera s) - vy (_last_vector s)
           + a * sin (d * (PI / 180) + PI / 2),
         vz (camera s) - vz (_last_vector s))) /\
     (duration s <= _length_shaking s + dt ->
      _shaking s' = false /\
      _last_vector s' = (0, 0, 0) /\
      camera s' =
        (vx (camera s) - vx (_last_vector s),
         vy (camera s) - vy (_last_vector s),
         vz (camera s) - vz (_last_vector s)))).
Proof.
  split; [|split; [|split]].
  - intros u1 u2 dt. apply (update_fixed_direction s d), Hd.
  - intros frames1 frames2 E. apply (drive_fixed_direction _ _ s d Hd E).
  - intros u dt a A. split; [apply update_offset_ok, A|].
    unfold shaken, offset_of, angle_of. rewrite Hd. split; reflexivity.
  - intros u dt a s' Hs A R. split.
    + intros L. rewrite (update_continue u dt s a Hs A L) in R.
      inversion R; subst s'; clear R.
      unfold shaken, offset_of, angle_of. rewrite Hd.
      split; [exact Hs | split; reflexivity].
    + intros L. rewrite (update_finish u dt s a Hs A L) in R.
      inversion R; subst s'; clear R.
      split; [reflexivity | split; [reflexivity|]].
      by_components.
Qed.

Lemma fixed_direction_deterministic_witness :
  update 0 1
    (exec start (init (mkCameraData (0, 0, 0)) 1 1 1 0.25 (Some 90))) =
  update 0.3 1
    (exec start (init (mkCameraData (0, 0, 0)) 1 1 1 0.25 (Some 90))) /\
  _last_vector
    (exec (update 0.3 1)
       (exec start (init (mkCameraData (0, 0, 0)) 1 1 1 0.25 (Some 90)))) =
  (1 * sin (90 * (PI / 180)), 1 * sin (90 * (PI / 180) + PI / 2), 0) /\
  vx (_last_vector
        (exec (update 0.3 1)
           (exec start
              (init (mkCameraData (0, 0, 0)) 1 1 1 0.25 (Some 90))))) = 1.
Proof.
  pose proof (fixed_direction_deterministic
                (exec start
                   (init (mkCameraData (0, 0, 0)) 1 1 1 0.25 (Some 90)))
                90 eq_refl) as (Hdet & _ & _ & Hoff).
  assert (D : 0 + 1 < duration
                (exec start
                   (init (mkCameraData (0, 0, 0)) 1 1 1 0.25 (Some 90)))).
  { rewrite duration_enabled by (cbn; lra). cbn. lra. }
  pose proof (update_continue 0.3 1
                (exec start
                   (init (mkCameraData (0, 0, 0)) 1 1 1 0.25 (Some 90)))
                1 eq_refl peak_amplitude D) as U.
  destruct (Hoff 0.3 1 1 _ eq_refl peak_amplitude U) as [Hgo _].
  destruct (Hgo D) as (_ & Hl & _).
  assert (E : exec (update 0.3 1)
                (exec start
                   (init (mkCameraData (0, 0, 0)) 1 1 1 0.25 (Some 90)))
              = shaken 0.3 1 1
                  (exec start
                     (init (mkCameraData (0, 0, 0)) 1 1 1 0.25 (Some 90))))
    by (unfold exec at 1; rewrite U; reflexivity).
  split; [exact (Hdet 0 0.3 1)|].
  rewrite E. split; [exact Hl|].
  rewrite Hl. unfold vx. cbn.
  replace (90 * (PI / 180)) with (PI / 2) by lra. rewrite sin_PI2. lra.
Defined.

(** ** The shape of the two halves of the envelope *)

Lemma ln_rate_negative : ln (0.0001 / 1.0001) < 0.
Proof. rewrite <- ln_1. apply ln_increasing; lra. Qed.

Lemma acceleration_amp_monotone x y :
  x <= y -> _acceleration_amp x <= _acceleration_amp y.
Proof.
  intros H. unfold _acceleration_amp.
  pose proof ln_rate_negative as N.
  destruct (Req_dec x y) as [->|Hne]; [lra|].
  assert (exp (ln (0.0001 / 1.0001) * y) < exp (ln (0.0001 / 1.0001) * x))
    by (apply exp_increasing; nra).
  lra.
Qed.

Lemma acceleration_amp_unit t : 0 <= t <= 1 -> 0 <= _acceleration_amp t <= 1.
Proof.
  intros [H0 H1]. split.
  - rewrite <- acceleration_amp_0. apply acceleration_amp_monotone, H0.
  - rewrite <- acceleration_amp_1. apply acceleration_amp_monotone, H1.
Qed.

(** The increase of the smootherstep between [x] and [y] is [y - x]
    times a sum of squares. *)
Lemma falloff_amp_monotone x y : x <= y -> _falloff_amp y <= _falloff_amp x.
Proof.
  intros H. unfold _falloff_amp.
  set (a := x * (1 - x)). set (b := (y - x) * (1 - 2 * x)).
  set (c := - ((y - x) * (y - x))).
  assert (E : y ^ 3 * (y * (y * 6 - 15) + 10)
              - x ^ 3 * (x * (x * 6 - 15) + 10)
              = (y - x) * (30 * ((a + b / 2 + c / 3) ^ 2
                                 + (b + c) ^ 2 / 12 + c ^ 2 / 180)))
    by (unfold a, b, c; field).
  pose proof (pow2_ge_0 (a + b / 2 + c / 3)) as S1.
  pose proof (pow2_ge_0 (b + c)) as S2.
  pose proof (pow2_ge_0 c) as S3.
  assert (P : 0 <= (y - x) * (30 * ((a + b / 2 + c / 3) ^ 2
                                   + (b + c) ^ 2 / 12 + c ^ 2 / 180)))
    by (apply Rmult_le_pos; lra).
  lra.
Qed.

Lemma falloff_amp_unit t : 0 <= t <= 1 -> 0 <= _falloff_amp t <= 1.
Proof.
  intros [H0 H1]. split.
  - rewrite <- falloff_amp_1. apply falloff_amp_monotone, H1.
  - rewrite <- falloff_amp_0. apply falloff_amp_monotone, H0.
Qed.

(** X1.  [_acceleration_amp] never decreases; on the scaled times
    between 0 and 1 its values lie between 0 and 1, and it stays below
    1.0001 everywhere. *)
Theorem acceleration_amp_shape :
  (forall x y, x <= y -> _acceleration_amp x <= _acceleration_amp y) /\
  (forall t, 0 <= t <= 1 -> 0 <= _acceleration_amp t <= 1) /\
  (forall t, _acceleration_amp t < 1.0001).
Proof.
  split; [exact acceleration_amp_monotone|].
  split; [exact acceleration_amp_unit|].
  intros t. unfold _acceleration_amp.
  pose proof (exp_pos (ln (0.0001 / 1.0001) * t)). lra.
Qed.

Lemma acceleration_amp_shape_witness :
  _acceleration_amp 0.25 <= _acceleration_amp 0.5 /\
  0 <= _acceleration_amp 0.5 <= 1.
Proof.
  destruct acceleration_amp_shape as (Hm & Hu & _).
  split; [apply Hm; lra | apply Hu; lra].
Defined.

(** X2.  [_falloff_amp] never increases, and on the scaled times between
    0 and 1 its values lie between 0 and 1, from 1 at 0 down to 0 at
    1. *)
Theorem falloff_amp_shape :
  (forall x y, x <= y -> _falloff_amp y <= _falloff_amp x) /\
  (forall t, 0 <= t <= 1 -> 0 <= _falloff_amp t <= 1) /\
  _falloff_amp 0 = 1 /\ _falloff_amp 1 = 0.
Proof.
  split; [exact falloff_amp_monotone|].
  split; [exact falloff_amp_unit|].
  split; [exact falloff_amp_0 | exact falloff_amp_1].
Qed.

Lemma falloff_amp_shape_witness :
  _falloff_amp 0.5 <= _falloff_amp 0.25 /\ 0 <= _falloff_amp 0.5 <= 1.
Proof.
  destruct falloff_amp_shape as (Hm & Hu & _).
  split; [apply Hm; lra | apply Hu; lra].
Defined.

(** Past the duration, with the falloff enabled. *)
Lemma calc_max_amp_past s :
  _acceleration_duration s < _length_shaking s ->
  0 <= falloff_duration s ->
  _acceleration_duration s + falloff_duration s < _length_shaking s ->
  outcome _calc_max_amp s = Ok 0.
Proof.
  intros H1 H2 H3.
  assert (F : Rltb (falloff_duration s) 0 = false) by (apply Rltb_false; lra).
  apply Rleb_false in H1. apply Rleb_false in H3.
  unfold _calc_max_amp, outcome, bind, gets, lift, ret, duration; cbn.
  rewrite H1; cbn. rewrite F; cbn. rewrite F, H3. reflexivity.
Qed.

Lemma scaled_time_unit a b : 0 <= a -> a <= b -> 0 < b -> 0 <= a / b <= 1.
Proof.
  intros Ha Hab Hb. split.
  - apply Rmult_le_pos; [exact Ha|]. left. apply Rinv_0_lt_compat, Hb.
  - apply (Rmult_le_reg_r b); [exact Hb|].
    unfold Rdiv. rewrite Rmult_assoc, Rinv_l by lra. lra.
Qed.

Lemma calc_max_amp_unit s :
  0 <= _length_shaking s -> 0 <= falloff_duration s ->
  0 < _acceleration_duration s \/ 0 < _length_shaking s ->
  exists v, outcome _calc_max_amp s = Ok v /\ 0 <= v <= 1.
Proof.
  intros Hl Hf Hg.
  destruct (Rle_dec (_length_shaking s) (_acceleration_duration s)) as [R|R].
  - assert (A : 0 < _acceleration_duration s) by (destruct Hg; lra).
    rewrite calc_max_amp_rise by lra. eexists; split; [reflexivity|].
    apply acceleration_amp_unit, scaled_time_unit; lra.
  - apply Rnot_le_lt in R.
    destruct (Rle_dec (_length_shaking s)
                (_acceleration_duration s + falloff_duration s)) as [D|D].
    + rewrite calc_max_amp_fall by lra. eexists; split; [reflexivity|].
      apply falloff_amp_unit, scaled_time_unit; lra.
    + apply Rnot_le_lt in D. rewrite calc_max_amp_past by lra.
      exists 0. split; [reflexivity | lra].
Qed.

(** X3.  With the falloff enabled and a non-negative elapsed time, the
    envelope [_calc_max_amp] returns a value between 0 and 1, provided
    the acceleration duration or the elapsed time is positive (else it
    divides zero by zero). *)
Theorem envelope_within_unit (s : ScreenShake2D)
    (Hl : 0 <= _length_shaking s) (Hf : 0 <= falloff_duration s)
    (Hg : 0 < _acceleration_duration s \/ 0 < _length_shaking s) :
  exists v, outcome _calc_max_amp s = Ok v /\ 0 <= v <= 1.
Proof. exact (calc_max_amp_unit s Hl Hf Hg). Qed.

Lemma envelope_within_unit_witness :
  exists v,
    outcome _calc_max_amp
      (set_length_shaking 1.5 (init_default (mkCameraData (0, 0, 0)))) = Ok v
    /\ 0 <= v <= 1.
Proof.
  apply envelope_within_unit; cbn; [lra | lra | left; lra].
Defined.

(** X4 (monotone phases).  With a positive acceleration duration the
    envelope does not decrease over the elapsed times up to the
    acceleration duration; with a positive falloff duration it does not
    increase from there to the duration. *)
Theorem envelope_monotone_phases (s : ScreenShake2D) (t1 t2 : R)
    (H : t1 <= t2) :
  (0 < _acceleration_duration s -> t2 <= _acceleration_duration s ->
   exists v1 v2, envelope t1 s = Ok v1 /\ envelope t2 s = Ok v2 /\ v1 <= v2) /\
  (0 < falloff_duration s -> _acceleration_duration s < t1 ->
   t2 <= _acceleration_duration s + falloff_duration s ->
   exists v1 v2, envelope t1 s = Ok v1 /\ envelope t2 s = Ok v2 /\ v2 <= v1).
Proof.
  split.
  - intros Ha H2. unfold envelope.
    rewrite !calc_max_amp_rise by (cbn; lra). cbn.
    eexists; eexists; split; [reflexivity | split; [reflexivity|]].
    apply acceleration_amp_monotone.
    apply Rmult_le_compat_r; [left; apply Rinv_0_lt_compat, Ha | exact H].
  - intros Hf H1 H2. unfold envelope.
    rewrite !calc_max_amp_fall by (cbn; lra). cbn.
    eexists; eexists; split; [reflexivity | split; [reflexivity|]].
    apply falloff_amp_monotone.
    apply Rmult_le_compat_r; [left; apply Rinv_0_lt_compat, Hf | lra].
Qed.

Lemma envelope_monotone_phases_witness :
  (exists v1 v2,
     envelope 0.25 (init_default (mkCameraData (0, 0, 0))) = Ok v1 /\
     envelope 0.5 (init_default (mkCameraData (0, 0, 0))) = Ok v2 /\
     v1 <= v2).
Proof.
  assert (H : 0.25 <= 0.5) by lra.
  destruct (envelope_monotone_phases
              (init_default (mkCameraData (0, 0, 0))) 0.25 0.5 H) as [Hr _].
  apply Hr; cbn; lra.
Defined.

(** ** The amplitude [update] works with *)

Lemma calc_max_amp_ignores_max_amplitude s m :
  0 <= falloff_duration s ->
  outcome _calc_max_amp (set_max_amplitude m s) = outcome _calc_max_amp s.
Proof.
  intros Hf. apply Rltb_false in Hf.
  unfold _calc_max_amp, outcome, bind, gets, lift, ret, duration; cbn.
  destruct (Rleb (_length_shaking s) (_acceleration_duration s)); cbn.
  - destruct (fdiv (_length_shaking s) (_acceleration_duration s));
      reflexivity.
  - rewrite Hf; cbn. rewrite Hf.
    destruct (Rleb (_length_shaking s)
                (_acceleration_duration s + falloff_duration s)); cbn.
    + destruct (fdiv (_length_shaking s - _acceleration_duration s)
                  (falloff_duration s)); reflexivity.
    + reflexivity.
Qed.

Lemma calc_amplitude_ignores_max_amplitude s m :
  0 <= falloff_duration s ->
  outcome _calc_amplitude (set_max_amplitude m s) = outcome _calc_amplitude s.
Proof.
  intros Hf.
  rewrite !calc_amplitude_outcome, (calc_max_amp_ignores_max_amplitude s m Hf).
  reflexivity.
Qed.

(** X5.  With the falloff enabled, [update] does not depend on
    [max_amplitude]: on a controller that differs in that attribute only
    it has the same outcome, moves the camera to the same place and
    leaves the same state, that attribute apart. *)
Theorem update_ignores_max_amplitude (s : ScreenShake2D) (u dt m : R)
    (Hf : 0 <= falloff_duration s) :
  update u dt (set_max_amplitude m s) =
    (outcome (update u dt) s, set_max_amplitude m (exec (update u dt) s)).
Proof.
  pose proof (calc_amplitude_ignores_max_amplitude (advance dt s) m Hf) as A.
  unfold outcome, exec.
  destruct (update_cases u dt s)
    as [[Hs E]|[(Hs & G & E)|[(Hs & L & a & Ha & E)|(Hs & L & a & Ha & E)]]];
    rewrite E; cbn [fst snd].
  - apply update_idle. exact Hs.
  - apply (update_raise u dt (set_max_amplitude m s)); [exact Hs|].
    apply calc_amplitude_raises. exact G.
  - apply (update_continue u dt (set_max_amplitude m s) a); [exact Hs| |exact L].
    rewrite <- Ha. exact A.
  - apply (update_finish u dt (set_max_amplitude m s) a); [exact Hs| |exact L].
    rewrite <- Ha. exact A.
Qed.

Lemma update_ignores_max_amplitude_witness :
  camera (exec (update 0 0.5)
            (set_max_amplitude 100
               (exec start (init_default (mkCameraData (0, 0, 0)))))) =
  camera (exec (update 0 0.5)
            (exec start (init_default (mkCameraData (0, 0, 0))))).
Proof.
  assert (Hf : 0 <= falloff_duration
                      (exec start (init_default (mkCameraData (0, 0, 0)))))
    by (cbn; lra).
  unfold exec at 1.
  rewrite (update_ignores_max_amplitude _ 0 0.5 100 Hf).
  reflexivity.
Defined.

Lemma offset_norm dd u a : norm2_xy (offset_of dd u a) = a * a.
Proof.
  unfold norm2_xy, offset_of, vx, vy; cbn.
  replace (angle_of dd u + PI / 2) with (PI / 2 + angle_of dd u) by lra.
  rewrite <- cos_sin.
  pose proof (sin2_cos2 (angle_of dd u)) as P. unfold Rsqr in P.
  replace (a * sin (angle_of dd u) * (a * sin (angle_of dd u))
           + a * cos (angle_of dd u) * (a * cos (angle_of dd u)))
    with (a * a * (sin (angle_of dd u) * sin (angle_of dd u)
                   + cos (angle_of dd u) * cos (angle_of dd u))) by ring.
  rewrite P. ring.
Qed.

(** X6.  Whatever the direction, fixed or sampled, the offset a frame
    writes has no z-component and its length is the absolute value of
    the amplitude (stated on the squares). *)
Theorem offset_length_is_amplitude (s : ScreenShake2D) (u dt a : R)
    (Ha : outcome _calc_amplitude (advance dt s) = Ok a) :
  outcome (update_offset u dt) s = Ok tt /\
  norm2_xy (_last_vector (exec (update_offset u dt) s)) = a * a /\
  vz (_last_vector (exec (update_offset u dt) s)) = 0.
Proof.
  unfold outcome at 1, exec. rewrite (update_offset_ok u dt s a Ha).
  cbn [fst snd]. split; [reflexivity|]. split; [|reflexivity].
  unfold shaken. cbn. apply offset_norm.
Qed.

Lemma calc_amplitude_unit s :
  0 <= _length_shaking s -> 0 <= falloff_duration s ->
  0 < _acceleration_duration s \/ 0 < _length_shaking s ->
  exists a, outcome _calc_amplitude s = Ok a /\ a * a <= 1.
Proof.
  intros Hl Hf Hg.
  destruct (calc_max_amp_unit s Hl Hf Hg) as (v & E & V).
  rewrite calc_amplitude_outcome, E. eexists; split; [reflexivity|].
  pose proof (SIN_bound (shake_frequency s * 2 * PI * _length_shaking s)) as B.
  set (t := sin (shake_frequency s * 2 * PI * _length_shaking s)) in *.
  assert (T : 0 <= t * t <= 1) by nra.
  assert (W : 0 <= v * v <= 1) by nra.
  replace (t * v * (t * v)) with ((t * t) * (v * v)) by ring.
  nra.
Qed.

Lemma offset_length_is_amplitude_witness :
  exists a,
    norm2_xy (_last_vector
                (exec (update_offset 0.3 0.5)
                   (exec start (init_default (mkCameraData (0, 0, 0))))))
    = a * a.
Proof.
  destruct (calc_amplitude_unit
              (advance 0.5 (exec start (init_default (mkCameraData (0, 0, 0))))))
    as (a & Ha & _); [cbn; lra | cbn; lra | left; cbn; lra |].
  exists a.
  exact (proj1 (proj2 (offset_length_is_amplitude _ 0.3 0.5 a Ha))).
Defined.

Lemma update_outcome_ok u dt s :
  ~ (_shaking s = true /\
     _length_shaking s + dt <= 0 /\ _acceleration_duration s = 0) ->
  outcome (update u dt) s = Ok tt.
Proof.
  intros G. apply (proj2 (update_returns u dt s)) in G. destruct G as [s' E].
  unfold outcome. rewrite E. reflexivity.
Qed.

(** X7.  While a shake with the falloff enabled and a positive
    acceleration duration is live, a frame that brings the elapsed time
    to a non-negative value and returns leaves the camera within
    distance 1 of the place it would return to, in the x-y plane,
    whatever [max_amplitude] is. *)
Theorem shake_within_unit_distance (base : vec3) (s : ScreenShake2D)
    (u dt : R)
    (Ht : tracks base s) (Hs : _shaking s = true)
    (Hf : 0 <= falloff_duration s) (Ha : 0 < _acceleration_duration s)
    (Hl : 0 <= _length_shaking s + dt)
    (Hret : outcome (update u dt) s = Ok tt) :
  camera (exec (update u dt) s) =
    vadd base (_last_vector (exec (update u dt) s)) /\
  norm2_xy (_last_vector (exec (update u dt) s)) <= 1 /\
  vz (_last_vector (exec (update u dt) s)) = 0.
Proof.
  pose proof (tracks_update base u dt s Ht) as T.
  destruct (calc_amplitude_unit (advance dt s)) as (a0 & A0 & B0);
    [exact Hl | exact Hf | left; exact Ha |].
  split; [exact T|].
  unfold exec.
  destruct (update_cases u dt s)
    as [[F E]|[(_ & [_ F] & E)|[(_ & _ & a & A & E)|(_ & _ & a & A & E)]]];
    rewrite E; cbn [snd].
  - congruence.
  - lra.
  - assert (a = a0) by congruence. subst a0.
    split; [|reflexivity]. unfold shaken; cbn. rewrite offset_norm. exact B0.
  - split; [|reflexivity]. unfold norm2_xy, vx, vy; cbn. lra.
Qed.

Lemma shake_within_unit_distance_witness :
  norm2_xy (_last_vector
              (exec (update 0.3 0.5)
                 (set_max_amplitude 100
                    (exec start (init_default (mkCameraData (0, 0, 0)))))))
  <= 1.
Proof.
  refine (proj1 (proj2
    (shake_within_unit_distance (0, 0, 0)
       (set_max_amplitude 100
          (exec start (init_default (mkCameraData (0, 0, 0)))))
       0.3 0.5 _ eq_refl _ _ _ _))).
  - unfold tracks. apply vec3_eq; cbn; lra.
  - cbn; lra.
  - cbn; lra.
  - cbn; lra.
  - apply update_outcome_ok. intros (_ & _ & F). cbn in F. lra.
Defined.

(** ** The derived properties *)

(** X8.  Assigning [acceleration] never raises, and reading it back
    gives the value assigned when that is positive and 0 otherwise; the
    read does not raise either. *)
Theorem acceleration_round_trip (s : ScreenShake2D) (a : R) :
  outcome (set_acceleration a) s = Ok tt /\
  outcome acceleration (exec (set_acceleration a) s) = Ok (Rmax 0 a).
Proof.
  unfold set_acceleration, acceleration, outcome, exec, bind, gets, lift, ret,
    modify.
  destruct (Rleb a 0) eqn:E; cbn.
  - apply Rleb_true in E. split; [reflexivity|].
    assert (Z : Rleb 0 0 = true) by (apply Rleb_true; lra).
    rewrite Z. rewrite Rmax_left by lra. reflexivity.
  - apply Rleb_false in E. rewrite fdiv_ok by lra. cbn.
    split; [reflexivity|].
    assert (P : 0 < 1 / a) by (apply Rdiv_lt_0_compat; lra).
    assert (Z : Rleb (1 / a) 0 = false) by (apply Rleb_false; exact P).
    rewrite Z, fdiv_ok by lra. rewrite Rmax_right by lra.
    cbn [fst]. f_equal. field. lra.
Qed.

(** X9.  Assigning [falloff] never raises; reading it back gives the
    value assigned when that is positive, and the sentinel -1 (falloff
    disabled) otherwise. *)
Theorem falloff_round_trip (s : ScreenShake2D) (f : R) :
  outcome (set_falloff f) s = Ok tt /\
  (0 < f -> outcome falloff (exec (set_falloff f) s) = Ok f) /\
  (f <= 0 -> outcome falloff (exec (set_falloff f) s) = Ok (-1)).
Proof.
  unfold set_falloff, falloff, outcome, exec, bind, gets, lift, ret, modify.
  destruct (Rleb f 0) eqn:E; cbn.
  - apply Rleb_true in E. split; [reflexivity|].
    assert (Z : Rltb (-1) 0 = true) by (apply Rltb_true; lra).
    rewrite Z. split; [intros; lra | reflexivity].
  - apply Rleb_false in E. rewrite fdiv_ok by lra. cbn.
    split; [reflexivity|].
    assert (P : 0 < 15 / 8 * (1 / f)).
    { apply Rmult_lt_0_compat; [lra | apply Rdiv_lt_0_compat; lra]. }
    assert (Z : Rltb (15 / 8 * (1 / f)) 0 = false)
      by (apply Rltb_false; lra).
    rewrite Z, fdiv_ok by lra. cbn [fst].
    split; [intros _; f_equal; field; lra | intros; lra].
Qed.

Lemma falloff_round_trip_witness :
  outcome falloff
    (exec (set_falloff 3) (init_default (mkCameraData (0, 0, 0)))) = Ok 3.
Proof.
  apply (proj1 (proj2 (falloff_round_trip
                         (init_default (mkCameraData (0, 0, 0))) 3))).
  lra.
Defined.

(** X10.  Reading [falloff] changes nothing; it raises
    [ZeroDivisionError] exactly when [falloff_duration] is 0, returns -1
    when the falloff is disabled and [15/8] over the falloff duration
    otherwise. *)
Theorem falloff_getter_outcome (s : ScreenShake2D) :
  exec falloff s = s /\
  (outcome falloff s = Raise ZeroDivisionError <-> falloff_duration s = 0) /\
  (falloff_duration s < 0 -> outcome falloff s = Ok (-1)) /\
  (0 < falloff_duration s ->
   outcome falloff s = Ok (15 / 8 * (1 / falloff_duration s))).
Proof.
  unfold falloff, outcome, exec, bind, gets, lift, ret.
  destruct (Rltb (falloff_duration s) 0) eqn:E; cbn.
  - apply Rltb_true in E. repeat split; intros; try reflexivity;
      try discriminate; lra.
  - apply Rltb_false in E. unfold fdiv.
    destruct (Req_dec_T (falloff_duration s) 0) as [Z|NZ]; cbn.
    + repeat split; intros; try reflexivity; try assumption; lra.
    + repeat split; intros; try reflexivity; try discriminate;
        try contradiction; lra.
Qed.

Lemma falloff_getter_outcome_witness :
  outcome falloff (init_default (mkCameraData (0, 0, 0)))
  = Ok (15 / 8 * (1 / 1)).
Proof.
  apply (proj2 (proj2 (proj2 (falloff_getter_outcome
                                (init_default (mkCameraData (0, 0, 0))))))).
  cbn. lra.
Defined.

(** The [duration] setter, branch by branch. *)
Lemma set_duration_run s D :
  set_duration D s =
    if Rleb D 0 then (Ok tt, set_falloff_duration (-1) s)
    else if Rltb (falloff_duration s) 0
         then (Ok tt, set_acceleration_duration D s)
         else match fdiv D (duration s) with
              | Ok r =>
                  (Ok tt,
                   set_falloff_duration (r * falloff_duration s)
                     (set_acceleration_duration
                        (r * _acceleration_duration s) s))
              | Raise e => (Raise e, s)
              end.
Proof.
  unfold set_duration. destruct (Rleb D 0); [reflexivity|].
  unfold bind, gets, lift, modify.
  destruct (Rltb (falloff_duration s) 0); [reflexivity|].
  destruct (fdiv D (duration s)); reflexivity.
Qed.

(** X11.  Assigning [duration] raises [ZeroDivisionError] exactly when
    the new duration is positive, the falloff is enabled and the two
    durations add up to 0; the controller is then left as it was. *)
Theorem set_duration_raises (s : ScreenShake2D) (D : R) :
  (outcome (set_duration D) s = Raise ZeroDivisionError <->
   0 < D /\ 0 <= falloff_duration s /\
   _acceleration_duration s + falloff_duration s = 0) /\
  (outcome (set_duration D) s = Raise ZeroDivisionError ->
   exec (set_duration D) s = s).
Proof.
  unfold outcome, exec. rewrite set_duration_run.
  destruct (Rleb D 0) eqn:E1.
  - apply Rleb_true in E1. cbn.
    split; [split; [discriminate | intros (F & _); lra] | discriminate].
  - apply Rleb_false in E1.
    destruct (Rltb (falloff_duration s) 0) eqn:E2.
    + apply Rltb_true in E2. cbn.
      split; [split; [discriminate | intros (_ & F & _); lra] | discriminate].
    + apply Rltb_false in E2. rewrite (duration_enabled s E2). unfold fdiv.
      destruct (Req_dec_T (_acceleration_duration s + falloff_duration s) 0)
        as [Z|NZ]; cbn.
      * split; [split; [intros _; repeat split; assumption | reflexivity]
               | reflexivity].
      * split; [split; [discriminate | intros (_ & _ & F); contradiction]
               | discriminate].
Qed.

Lemma set_duration_raises_witness :
  exec (set_duration 1) zero_length = zero_length.
Proof.
  destruct (set_duration_raises zero_length 1) as [Hiff Hsame].
  apply Hsame, Hiff. cbn. repeat split; lra.
Defined.

(** X12.  On a controller whose acceleration duration is not negative,
    an assignment of a positive [duration] that returns makes the
    getter return the value assigned, and keeps the falloff enabled or
    disabled as it was. *)
Theorem duration_round_trip (s : ScreenShake2D) (D : R)
    (Ha : 0 <= _acceleration_duration s) (HD : 0 < D)
    (Hret : outcome (set_duration D) s = Ok tt) :
  duration (exec (set_duration D) s) = D /\
  (falloff_duration (exec (set_duration D) s) < 0 <->
   falloff_duration s < 0).
Proof.
  revert Hret. unfold outcome, exec. rewrite set_duration_run.
  pose proof HD as B1. apply Rleb_false in B1. rewrite B1.
  destruct (Rltb (falloff_duration s) 0) eqn:E2.
  - apply Rltb_true in E2. cbn. intros _.
    split; [apply duration_disabled; cbn; exact E2 | tauto].
  - apply Rltb_false in E2. rewrite (duration_enabled s E2). unfold fdiv.
    destruct (Req_dec_T (_acceleration_duration s + falloff_duration s) 0)
      as [Z|NZ]; cbn; [discriminate|]. intros _.
    set (r := D / (_acceleration_duration s + falloff_duration s)).
    assert (R0 : 0 < r) by (apply Rdiv_lt_0_compat; lra).
    assert (F0 : 0 <= r * falloff_duration s) by (apply Rmult_le_pos; lra).
    split.
    + rewrite duration_enabled by (cbn; exact F0). cbn. unfold r. field. lra.
    + split; intros; lra.
Qed.

Lemma duration_round_trip_witness :
  duration (exec (set_duration 3) (init_default (mkCameraData (0, 0, 0)))) = 3.
Proof.
  refine (proj1 (duration_round_trip
                   (init_default (mkCameraData (0, 0, 0))) 3 _ _ _)).
  - cbn; lra.
  - lra.
  - destruct (result_cases
                (outcome (set_duration 3)
                   (init_default (mkCameraData (0, 0, 0))))) as [[[] E]|E].
    + exact E.
    + apply (proj1 (set_duration_raises _ 3)) in E. cbn in E.
      exfalso. lra.
Defined.

(** ** Configuration and transient state keep apart *)

Lemma update_keeps_configuration u dt s :
  configuration (exec (update u dt) s) = configuration s.
Proof.
  unfold exec.
  destruct (update_cases u dt s)
    as [[_ E]|[(_ & _ & E)|[(_ & _ & a & _ & E)|(_ & _ & a & _ & E)]]];
    rewrite E; reflexivity.
Qed.

Lemma lifecycle_keeps_configuration c s :
  is_lifecycle c = true ->
  configuration (exec (perform c) s) = configuration s.
Proof.
  destruct c; cbn [is_lifecycle perform]; try discriminate; intros _;
    try reflexivity.
  apply update_keeps_configuration.
Qed.

Lemma configuration_fields s1 s2 :
  configuration s1 = configuration s2 ->
  _acceleration_duration s1 = _acceleration_duration s2 /\
  falloff_duration s1 = falloff_duration s2 /\
  duration s1 = duration s2.
Proof.
  unfold configuration, duration. intros E. injection E as E1 E2 E3 E4 E5.
  rewrite E2, E4. repeat split.
Qed.

(** X13.  Assignments of the configuration (properties and public
    attributes) and reads of properties never change whether the
    controller is shaking, its elapsed time, its last offset or the
    camera position, whether they return or raise. *)
Theorem assignments_leave_shake_alone (c : call) (s : ScreenShake2D)
    (Hc : is_lifecycle c = false) :
  _shaking (exec (perform c) s) = _shaking s /\
  _length_shaking (exec (perform c) s) = _length_shaking s /\
  _last_vector (exec (perform c) s) = _last_vector s /\
  camera (exec (perform c) s) = camera s.
Proof. exact (configuration_frame c s Hc). Qed.

Lemma assignments_leave_shake_alone_witness :
  camera (exec (perform (AssignDuration 3)) mid_shake) = camera mid_shake.
Proof.
  exact (proj2 (proj2 (proj2
    (assignments_leave_shake_alone (AssignDuration 3) mid_shake eq_refl)))).
Defined.

(** X14.  [start], [stop], [reset] and [update] never change the
    configuration: the amplitude, the two durations, the frequency and
    the direction stay as they are, also when a shake stops by itself
    and when [update] raises. *)
Theorem lifecycle_leaves_configuration (c : call) (s : ScreenShake2D)
    (Hc : is_lifecycle c = true) :
  max_amplitude (exec (perform c) s) = max_amplitude s /\
  falloff_duration (exec (perform c) s) = falloff_duration s /\
  shake_frequency (exec (perform c) s) = shake_frequency s /\
  _acceleration_duration (exec (perform c) s) = _acceleration_duration s /\
  direction_deg (exec (perform c) s) = direction_deg s.
Proof.
  pose proof (lifecycle_keeps_configuration c s Hc) as E.
  unfold configuration in E. injection E as E1 E2 E3 E4 E5.
  repeat split; assumption.
Qed.

Lemma lifecycle_leaves_configuration_witness :
  max_amplitude (exec (perform (CallUpdate 0.3 0.5)) hold_state)
  = max_amplitude hold_state.
Proof.
  exact (proj1 (lifecycle_leaves_configuration
                  (CallUpdate 0.3 0.5) hold_state eq_refl)).
Defined.

(** X15.  A stored acceleration duration that is not negative stays so
    under every call: the setters of [acceleration_duration] and
    [acceleration] clamp, and the [duration] setter scales by a positive
    ratio. *)
Theorem acceleration_duration_stays_nonnegative (c : call)
    (s : ScreenShake2D) (H : 0 <= _acceleration_duration s) :
  0 <= _acceleration_duration (exec (perform c) s).
Proof.
  destruct (is_lifecycle c) eqn:L.
  - destruct (configuration_fields _ _ (lifecycle_keeps_configuration c s L))
      as (E & _). rewrite E. exact H.
  - destruct c; try discriminate L; cbn [perform];
      rewrite ?discard_exec, ?current_amplitude_pure;
      try exact H.
    + unfold exec. rewrite set_duration_run.
      destruct (Rleb v 0) eqn:E1; [exact H|]. apply Rleb_false in E1.
      destruct (Rltb (falloff_duration s) 0) eqn:E2; [cbn; lra|].
      apply Rltb_false in E2. rewrite (duration_enabled s E2). unfold fdiv.
      destruct (Req_dec_T (_acceleration_duration s + falloff_duration s) 0)
        as [Z|NZ]; cbn; [exact H|].
      apply Rmult_le_pos; [|exact H].
      left. apply Rdiv_lt_0_compat; lra.
    + unfold set_acceleration_duration_prop, exec, modify.
      destruct (Rltb v 0) eqn:E; cbn; [lra | apply Rltb_false in E; exact E].
    + unfold set_acceleration, exec, bind, lift, modify.
      destruct (Rleb v 0) eqn:E; cbn; [lra|]. apply Rleb_false in E.
      rewrite fdiv_ok by lra. cbn. left. apply Rdiv_lt_0_compat; lra.
    + unfold set_falloff, exec, bind, lift, modify.
      destruct (Rleb v 0) eqn:E; cbn; [exact H|].
      destruct (fdiv 1 v); exact H.
    + unfold acceleration, exec, bind, gets, lift, ret.
      destruct (Rleb (_acceleration_duration s) 0); cbn; [exact H|].
      destruct (fdiv 1 (_acceleration_duration s)); exact H.
    + unfold falloff, exec, bind, gets, lift, ret.
      destruct (Rltb (falloff_duration s) 0); cbn; [exact H|].
      destruct (fdiv 1 (falloff_duration s)); exact H.
Qed.

Lemma acceleration_duration_stays_nonnegative_witness :
  0 <= _acceleration_duration
         (exec (perform (AssignAccelerationDuration (-2)))
            (init_default (mkCameraData (0, 0, 0)))).
Proof.
  apply acceleration_duration_stays_nonnegative. cbn. lra.
Defined.

(** X16.  Reading [current_amplitude] changes nothing.  It raises
    [ZeroDivisionError] exactly when the elapsed time is not positive
    and the acceleration duration is 0 (as on a new controller built
    with [acceleration_duration=0.0]); a value it returns is the
    sinusoid times the value of the envelope times [max_amplitude]. *)
Theorem current_amplitude_cases (s : ScreenShake2D) :
  exec current_amplitude s = s /\
  (outcome current_amplitude s = Raise ZeroDivisionError <->
   _length_shaking s <= 0 /\ _acceleration_duration s = 0) /\
  (forall a, outcome current_amplitude s = Ok a ->
     exists v,
       outcome _calc_max_amp s = Ok v /\
       a = sin (shake_frequency s * 2 * PI * _length_shaking s) * v
           * max_amplitude s).
Proof.
  split; [apply current_amplitude_pure|]. split.
  - rewrite current_amplitude_outcome, <- calc_amplitude_raises.
    destruct (outcome _calc_amplitude s) as [a|[]];
      split; try discriminate; reflexivity.
  - intros a. rewrite current_amplitude_outcome, calc_amplitude_outcome.
    destruct (outcome _calc_max_amp s) as [v|e]; [|discriminate].
    intros E. injection E as E. exists v. split; [reflexivity | congruence].
Qed.

Lemma current_amplitude_cases_witness :
  outcome current_amplitude (init (mkCameraData (0, 0, 0)) 1 1 0 15 None)
  = Raise ZeroDivisionError.
Proof.
  apply (proj1 (proj2 (current_amplitude_cases
                         (init (mkCameraData (0, 0, 0)) 1 1 0 15 None)))).
  cbn. split; lra.
Defined.

(** ** Sequences of frames *)

Lemma drive_idle frames :
  forall s, _shaking s = false -> drive frames s = s.
Proof.
  induction frames as [|[u dt] rest IH]; intros s H; cbn.
  - reflexivity.
  - unfold exec. rewrite (update_idle u dt s H). cbn. apply IH, H.
Qed.

Lemma run_frames_idle frames :
  forall s, _shaking s = false -> run_frames frames s = (Ok tt, s).
Proof.
  induction frames as [|[u dt] rest IH]; intros s H; cbn.
  - reflexivity.
  - unfold bind. rewrite (update_idle u dt s H). apply IH, H.
Qed.

(** X17.  On a controller that is not shaking (new, stopped, or
    stopped by itself) no sequence of [update] calls raises or changes
    anything, the camera included. *)
Theorem updates_idle_until_start (frames : list frame) (s : ScreenShake2D)
    (H : _shaking s = false) :
  run_frames frames s = (Ok tt, s) /\ drive frames s = s.
Proof. split; [apply run_frames_idle, H | apply drive_idle, H]. Qed.

Lemma updates_idle_until_start_witness :
  drive [(0.1, 0.5); (0.7, 2)] (init_default (mkCameraData (1, 2, 3)))
  = init_default (mkCameraData (1, 2, 3)).
Proof.
  exact (proj2 (updates_idle_until_start [(0.1, 0.5); (0.7, 2)]
                  (init_default (mkCameraData (1, 2, 3))) eq_refl)).
Defined.

Lemma update_still_shaking u dt s :
  _shaking (exec (update u dt) s) = true ->
  _shaking s = true /\
  _length_shaking (exec (update u dt) s) = _length_shaking s + dt.
Proof.
  unfold exec.
  destruct (update_cases u dt s)
    as [[Hs E]|[(Hs & _ & E)|[(Hs & _ & a & _ & E)|(Hs & _ & a & _ & E)]]];
    rewrite E; cbn [snd]; intros H.
  - congruence.
  - split; [exact Hs | reflexivity].
  - split; [exact Hs | reflexivity].
  - discriminate H.
Qed.

Lemma drive_still_shaking frames :
  forall s, _shaking (drive frames s) = true ->
            _shaking s = true /\
            _length_shaking (drive frames s)
              = _length_shaking s + total_time frames.
Proof.
  induction frames as [|[u dt] rest IH]; intros s H; cbn in *.
  - split; [exact H | lra].
  - destruct (IH _ H) as [H1 H2].
    destruct (update_still_shaking u dt s H1) as [H3 H4].
    split; [exact H3 | rewrite H2, H4; lra].
Qed.

(** X18.  If the controller is shaking after a sequence of [update]
    calls, it was shaking all along and its elapsed time has grown by
    exactly the sum of the time steps. *)
Theorem elapsed_time_accumulates (frames : list frame) (s : ScreenShake2D)
    (H : _shaking (drive frames s) = true) :
  _shaking s = true /\
  _length_shaking (drive frames s) = _length_shaking s + total_time frames.
Proof. exact (drive_still_shaking frames s H). Qed.

Lemma elapsed_time_accumulates_witness :
  _length_shaking half_way = 0 + (0.25 + 0).
Proof.
  exact (proj2 (elapsed_time_accumulates [(0, 0.25)]
                  (exec start (init (mkCameraData (0, 0, 0)) 1 0.3 0.2 15 None))
                  (proj1 half_way_attributes))).
Defined.

Lemma drive_stops_in_time frames :
  forall s,
    _acceleration_duration s <> 0 ->
    frames <> [] ->
    duration s <= _length_shaking s + total_time frames ->
    _shaking (drive frames s) = false.
Proof.
  induction frames as [|[u dt] rest IH]; intros s Ha Hne Hd; [contradiction|].
  cbn [drive].
  destruct (_shaking (exec (update u dt) s)) eqn:S1.
  - destruct (update_still_shaking u dt s S1) as [Hs Hl].
    destruct (configuration_fields _ _ (update_keeps_configuration u dt s))
      as (Ea & _ & Ed).
    destruct rest as [|f rest'].
    + cbn in Hd.
      revert S1. unfold exec.
      destruct (update_cases u dt s)
        as [[F E]|[(_ & [_ F] & E)|[(_ & L & a & _ & E)|(_ & L & a & _ & E)]]];
        rewrite E; cbn [snd]; intros S1.
      * congruence.
      * contradiction.
      * exfalso. lra.
      * discriminate S1.
    + apply IH.
      * rewrite Ea. exact Ha.
      * discriminate.
      * rewrite Ed, Hl.
        change (total_time ((u, dt) :: f :: rest'))
          with (dt + total_time (f :: rest')) in Hd.
        lra.
  - apply drive_idle with (frames := rest) in S1 as D. rewrite D. exact S1.
Qed.

(** X19 (auto-stop over a run).  With a non-zero acceleration duration,
    any non-empty sequence of [update] calls whose time steps bring the
    elapsed time to the duration or past it leaves the controller not
    shaking, with no call to [stop()]. *)
Theorem run_stops_by_itself (frames : list frame) (s : ScreenShake2D)
    (Ha : _acceleration_duration s <> 0) (Hne : frames <> [])
    (Hd : duration s <= _length_shaking s + total_time frames) :
  _shaking (drive frames s) = false.
Proof. exact (drive_stops_in_time frames s Ha Hne Hd). Qed.

Lemma run_stops_by_itself_witness :
  _shaking (drive [(0, 0.25); (0, 0.25)]
              (exec start (init (mkCameraData (0, 0, 0)) 1 0.3 0.2 15 None)))
  = false.
Proof.
  apply run_stops_by_itself.
  - cbn. lra.
  - discriminate.
  - rewrite duration_enabled by (cbn; lra). cbn. lra.
Defined.

(** X20.  [stop()] twice is [stop()] once: the second call finds a zero
    last offset and leaves the camera where the first put it. *)
Theorem stop_idempotent (s : ScreenShake2D) :
  exec stop (exec stop s) = exec stop s.
Proof.
  unfold exec. rewrite !stop_run. cbn [snd].
  destruct s as [[[[px py] pz]] ma fd sf ad sh ls cd [[lx ly] lz] lu dd].
  unfold stopped, camera, vx, vy, vz. cbn.
  replace (px - lx - 0) with (px - lx) by lra.
  replace (py - ly - 0) with (py - ly) by lra.
  replace (pz - lz - 0) with (pz - lz) by lra.
  reflexivity.
Qed.

(** X21.  An [update] that raises has advanced the elapsed time by the
    time step and done nothing else: the camera position, the last
    offset and the shaking flag are as before. *)
Theorem update_raise_keeps_camera (s : ScreenShake2D) (u dt : R) (e : exn)
    (H : outcome (update u dt) s = Raise e) :
  exec (update u dt) s = advance dt s /\
  camera (exec (update u dt) s) = camera s /\
  _last_vector (exec (update u dt) s) = _last_vector s /\
  _shaking (exec (update u dt) s) = true.
Proof.
  revert H. unfold outcome, exec.
  destruct (update_cases u dt s)
    as [[Hs E]|[(Hs & _ & E)|[(Hs & _ & a & _ & E)|(Hs & _ & a & _ & E)]]];
    rewrite E; cbn [fst snd]; intros H; try discriminate H.
  repeat split. exact Hs.
Qed.

Lemma update_raise_keeps_camera_witness :
  camera (exec (update 0 0) instant_start) = camera instant_start.
Proof.
  assert (H : outcome (update 0 0) instant_start = Raise ZeroDivisionError).
  { unfold outcome.
    rewrite (update_raise 0 0 instant_start ZeroDivisionError eq_refl);
      [reflexivity|].
    apply calc_amplitude_raises. cbn. split; lra. }
  exact (proj1 (proj2 (update_raise_keeps_camera instant_start 0 0 _ H))).
Defined.

Lemma update_positive_step u dt s :
  0 <= _length_shaking s -> 0 < dt ->
  outcome (update u dt) s = Ok tt /\
  0 <= _length_shaking (exec (update u dt) s).
Proof.
  intros Hl Hdt. unfold outcome, exec.
  destruct (update_cases u dt s)
    as [[_ E]|[(_ & [F _] & E)|[(_ & _ & a & _ & E)|(_ & _ & a & _ & E)]]];
    rewrite E; cbn [fst snd].
  - split; [reflexivity | exact Hl].
  - exfalso. lra.
  - split; [reflexivity | cbn; lra].
  - split; [reflexivity | cbn; lra].
Qed.

Lemma run_frames_positive frames :
  forall s,
    0 <= _length_shaking s ->
    Forall (fun f : frame => 0 < snd f) frames ->
    run_frames frames s = (Ok tt, drive frames s).
Proof.
  induction frames as [|[u dt] rest IH]; intros s Hl Hp; cbn.
  - reflexivity.
  - inversion Hp as [|f l Hdt Hrest]; subst. cbn in Hdt.
    destruct (update_positive_step u dt s Hl Hdt) as [Ho Hl'].
    unfold bind. rewrite (run_split (update u dt) s), Ho.
    apply IH; assumption.
Qed.

(** X22.  From a non-negative elapsed time, a loop of [update] calls
    with positive time steps never raises [ZeroDivisionError], whatever
    the configuration (that division needs an elapsed time that is not
    positive), and it leaves a non-negative elapsed time. *)
Theorem positive_steps_never_divide_by_zero (frames : list frame)
    (s : ScreenShake2D)
    (Hl : 0 <= _length_shaking s)
    (Hp : Forall (fun f : frame => 0 < snd f) frames) :
  outcome (run_frames frames) s <> Raise ZeroDivisionError /\
  0 <= _length_shaking (exec (run_frames frames) s).
Proof.
  unfold outcome, exec. rewrite (run_frames_positive frames s Hl Hp).
  cbn [fst snd]. split; [discriminate|].
  revert s Hl Hp.
  induction frames as [|[u dt] rest IH]; intros s Hl Hp; cbn.
  - exact Hl.
  - inversion Hp as [|f l Hdt Hrest]; subst. cbn in Hdt.
    apply IH; [|exact Hrest].
    apply (update_positive_step u dt s Hl Hdt).
Qed.

Lemma positive_steps_never_divide_by_zero_witness :
  outcome (run_frames [(0, 0.5); (0, 0.5)]) instant_start
  <> Raise ZeroDivisionError.
Proof.
  apply (positive_steps_never_divide_by_zero
           [(0, 0.5); (0, 0.5)] instant_start).
  - cbn; lra.
  - repeat constructor; cbn; lra.
Defined.


(** X23.  An [update] that returns from a call made while shaking with
    the advanced elapsed time at or past [duration] has stopped the
    shake: the controller is not shaking and its elapsed time, last
    offset, direction and last update time are zero.  And whenever
    [update] returns leaving the controller shaking, the elapsed time
    is below [duration], with the falloff enabled or disabled. *)
Theorem update_stops_when_due (s s' : ScreenShake2D) (u dt : R)
    (Hret : update u dt s = (Ok tt, s')) :
  (_shaking s = true -> duration s <= _length_shaking s + dt ->
   _shaking s' = false /\ _length_shaking s' = 0 /\
   _last_vector s' = (0, 0, 0) /\ _current_dir s' = 0 /\
   _last_update_time s' = 0) /\
  (_shaking s' = true -> _length_shaking s' < duration s').
Proof. exact (update_stops_on_return u dt s s' Hret). Qed.

Lemma update_stops_when_due_witness :
  _shaking (exec (update 0 0.25) half_way) = false.
Proof.
  destruct half_way_attributes as (Hs & Hl & Ha & Hf).
  assert (G : ~ (_shaking half_way = true /\
                 _length_shaking half_way + 0.25 <= 0 /\
                 _acceleration_duration half_way = 0))
    by (intros (_ & _ & F); lra).
  apply (proj2 (update_returns 0 0.25 half_way)) in G. destruct G as [s' E].
  destruct (update_stops_when_due half_way s' 0 0.25 E) as [Hstop _].
  unfold exec. rewrite E. cbn [snd].
  apply Hstop.
  - exact Hs.
  - rewrite duration_enabled by lra. lra.
Defined.
